(** * Disaster-relief resource management: camps, victims, distribution

    A shallow embedding of [models.py] (the SQLite-backed repositories) and of
    the business logic of [app.py] (resource distribution, victim
    registration, manual distribution, the report), with the properties of
    the specification stated and proved over it.

    Modelling conventions.
    - A table is the list of its rows in storage order; the database is the
      pair of tables together with the two AUTOINCREMENT counters that SQLite
      keeps in [sqlite_sequence].
    - Every function of [models.py] opens a connection, runs one statement and
      commits; it is modelled as a computation in a state monad over the
      database.
    - Python integers and SQLite INTEGER cells are modelled by [Z].  Module
      [Sqlite] restates the functions of [models.py] with the 64-bit rules of
      [sqlite3] and SQLite (parameters that cannot be bound, sums that leave
      the integer range, the largest rowid); the statements about the
      repository beyond a single stored row are made there.
    - TEXT cells are [string]s; the nullable foreign key is an [option Z]. *)

From Stdlib Require Import ZArith List String Bool Lia.
From Stdlib Require Import Sorting.Permutation Sorting.Sorted.
From Stdlib Require Import Floats.SpecFloat.
Import ListNotations.

Local Open Scope string_scope.
Local Open Scope list_scope.
Local Open Scope Z_scope.

(** ** Rows *)

(** A row of table [camps]; [Camp(row)] exposes the columns as attributes. *)
Record Camp : Type := mkCamp {
  camp_id : Z;
  location : string;
  max_capacity : Z;
  available_food : Z;
  available_medical_kits : Z;
  volunteers : Z;
  current_occupancy : Z
}.

(** A row of table [victims]. *)
Record Victim : Type := mkVictim {
  victim_id : Z;
  name : string;
  age : Z;
  health_condition : string;
  assigned_camp_id : option Z;
  food_distributed : Z;
  medical_kits_distributed : Z
}.

(** [Camp.is_full] *)
Definition is_full (c : Camp) : bool :=
  current_occupancy c >=? max_capacity c.

(** [Victim.is_critical] *)
Definition is_critical (v : Victim) : bool :=
  String.eqb (health_condition v) "critical".

(** ** Python floats

    A Python [float] is an IEEE 754 binary64 value, here a [spec_float] of
    the Standard Library's executable specification of floating-point
    arithmetic. *)

Definition prec : Z := 53.
Definition emax : Z := 1024.

Inductive PyNum : Type :=
| PyInt (n : Z)
| PyFloat (x : spec_float).

(** An integer as an exact, not yet rounded, operand. *)
Definition SF_of_Z (a : Z) : spec_float :=
  match a with
  | Z0 => S754_zero false
  | Zpos p => S754_finite false p 0
  | Zneg p => S754_finite true p 0
  end.

(** The exceptions the arithmetic below can raise. *)
Inductive PyExc : Type :=
| ZeroDivisionError
| OverflowError.

Inductive PyResult (A : Type) : Type :=
| Returns (a : A)
| Raises (e : PyExc).

Arguments Returns {A} a.
Arguments Raises {A} e.

(** A float result that left the finite range raises [OverflowError]. *)
Definition finite_or_overflow (x : spec_float) : PyResult spec_float :=
  match x with
  | S754_infinity _ => Raises OverflowError
  | _ => Returns x
  end.

(** [a / b] on two [int]s: the correctly rounded quotient of the integers. *)
Definition py_truediv (a b : Z) : PyResult spec_float :=
  if b =? 0 then Raises ZeroDivisionError
  else match a with
       | Z0 => Returns (S754_zero (b <? 0))
       | _ => finite_or_overflow (SFdiv prec emax (SF_of_Z a) (SF_of_Z b))
       end.

(** [x * n] for a [float] and an [int] that converts exactly. *)
Definition py_float_mul_int (x : spec_float) (n : Z) : spec_float :=
  SFmul prec emax x (SF_of_Z n).

(** The integer nearest to [p / q] for [q > 0], ties to the even one. *)
Definition round_half_even_div (p q : Z) : Z :=
  let d := p / q in
  match (2 * (p mod q)) ?= q with
  | Lt => d
  | Gt => d + 1
  | Eq => if Z.even d then d else d + 1
  end.

(** [round(x, 1)]: the exact value of [x] is rounded to one decimal place,
    ties to even, and the decimal is converted back to the nearest float;
    zeros, infinities and NaN round to themselves. *)
Definition py_round1 (x : spec_float) : PyResult spec_float :=
  match x with
  | S754_finite s m e =>
      let tenths := if 0 <=? e then Zpos m * 2 ^ e * 10
                    else round_half_even_div (Zpos m * 10) (2 ^ (- e)) in
      match tenths with
      | Zpos p =>
          finite_or_overflow
            (SFdiv prec emax (S754_finite s p 0) (S754_finite false 10 0))
      | _ => Returns (S754_zero s)
      end
  | _ => Returns x
  end.

(** [Camp.occupancy_percentage] *)
Definition occupancy_percentage (c : Camp) : PyResult PyNum :=
  if max_capacity c =? 0 then Returns (PyInt 0)
  else
    match py_truediv (current_occupancy c) (max_capacity c) with
    | Returns q =>
        match py_round1 (py_float_mul_int q 100) with
        | Returns r => Returns (PyFloat r)
        | Raises e => Raises e
        end
    | Raises e => Raises e
    end.

(** ** The database and the connection monad *)

Record DB : Type := mkDB {
  camps : list Camp;
  camps_seq : Z;
  victims : list Victim;
  victims_seq : Z
}.

(** [init_db] on a fresh file: two empty tables. *)
Definition init_db : DB := mkDB [] 0 [] 0.

(** A committed [with get_db() as conn: ...] block. *)
Definition Conn (A : Type) : Type := DB -> A * DB.

Definition ret {A : Type} (a : A) : Conn A := fun db => (a, db).

Definition bind {A B : Type} (m : Conn A) (k : A -> Conn B) : Conn B :=
  fun db => let (a, db') := m db in k a db'.

Definition query {A : Type} (q : DB -> A) : Conn A := fun db => (q db, db).

Definition execute (u : DB -> DB) : Conn unit := fun db => (tt, u db).

Declare Scope conn_scope.
Delimit Scope conn_scope with conn.
Notation "x <- m ;; k" := (bind m (fun x => k))
  (at level 61, m at next level, right associativity) : conn_scope.
Notation "m ;;; k" := (bind m (fun _ => k))
  (at level 61, right associativity) : conn_scope.

(** ** SQL building blocks *)

(** [ORDER BY key]: a stable insertion sort on an integer key. *)
Fixpoint insert_by {A : Type} (key : A -> Z) (x : A) (l : list A) : list A :=
  match l with
  | [] => [x]
  | y :: l' => if key x <? key y then x :: y :: l' else y :: insert_by key x l'
  end.

Fixpoint order_by {A : Type} (key : A -> Z) (l : list A) : list A :=
  match l with
  | [] => []
  | x :: l' => insert_by key x (order_by key l')
  end.

(** The rowid an [INTEGER PRIMARY KEY AUTOINCREMENT] column gives to a new
    row: one more than the largest rowid ever in the table. *)
Definition next_rowid (seq : Z) (ids : list Z) : Z :=
  Z.max seq (fold_right Z.max 0 ids) + 1.

(** ** Camp helpers *)

(** [SELECT * FROM camps ORDER BY camp_id] *)
Definition get_all_camps : Conn (list Camp) :=
  query (fun db => order_by camp_id (camps db)).

(** [SELECT * FROM camps WHERE camp_id=?], [fetchone] *)
Definition get_camp (cid : Z) : Conn (option Camp) :=
  query (fun db => find (fun c => camp_id c =? cid) (camps db)).

(** [SELECT * FROM camps WHERE current_occupancy < max_capacity ORDER BY camp_id] *)
Definition get_available_camps : Conn (list Camp) :=
  query (fun db =>
    order_by camp_id
      (filter (fun c => current_occupancy c <? max_capacity c) (camps db))).

(** [INSERT INTO camps (...) VALUES (?,?,?,?,?)]; [current_occupancy] takes
    its default 0; returns [lastrowid]. *)
Definition create_camp (loc : string) (cap food kits vols : Z) : Conn Z :=
  fun db =>
    let cid := next_rowid (camps_seq db) (map camp_id (camps db)) in
    (cid, mkDB (camps db ++ [mkCamp cid loc cap food kits vols 0]) cid
               (victims db) (victims_seq db)).

(** The [SET] clause of [update_camp_resources] on one row. *)
Definition bump_camp (food_delta kits_delta occupancy_delta : Z) (c : Camp) : Camp :=
  mkCamp (camp_id c) (location c) (max_capacity c)
         (available_food c + food_delta)
         (available_medical_kits c + kits_delta)
         (volunteers c)
         (current_occupancy c + occupancy_delta).

(** [UPDATE camps SET ... WHERE camp_id=?] *)
Definition update_camp_resources
    (cid : Z) (food_delta kits_delta occupancy_delta : Z) : Conn unit :=
  execute (fun db =>
    mkDB (map (fun c => if camp_id c =? cid
                        then bump_camp food_delta kits_delta occupancy_delta c
                        else c) (camps db))
         (camps_seq db) (victims db) (victims_seq db)).

(** ** Victim helpers *)

(** [SELECT * FROM victims ORDER BY victim_id] *)
Definition get_all_victims : Conn (list Victim) :=
  query (fun db => order_by victim_id (victims db)).

(** [SELECT * FROM victims WHERE victim_id=?], [fetchone] *)
Definition get_victim (vid : Z) : Conn (option Victim) :=
  query (fun db => find (fun v => victim_id v =? vid) (victims db)).

(** [SELECT * FROM victims WHERE assigned_camp_id=? ORDER BY victim_id] *)
Definition get_victims_for_camp (cid : Z) : Conn (list Victim) :=
  query (fun db =>
    order_by victim_id
      (filter (fun v => match assigned_camp_id v with
                        | Some k => k =? cid
                        | None => false
                        end) (victims db))).

(** [INSERT INTO victims (name,age,health_condition,assigned_camp_id)]; the
    two counters take their default 0.  With [PRAGMA foreign_keys = ON] the
    statement raises [IntegrityError] (here [None], nothing written) when
    [camp_id] names no row of [camps]. *)
Definition create_victim (nm : string) (ag : Z) (hc : string) (cid : Z)
  : Conn (option Z) :=
  fun db =>
    if existsb (fun c => camp_id c =? cid) (camps db) then
      let vid := next_rowid (victims_seq db) (map victim_id (victims db)) in
      (Some vid,
       mkDB (camps db) (camps_seq db)
            (victims db ++ [mkVictim vid nm ag hc (Some cid) 0 0]) vid)
    else (None, db).

(** The [SET] clause of [update_victim_distributions] on one row. *)
Definition bump_victim (food_delta kits_delta : Z) (v : Victim) : Victim :=
  mkVictim (victim_id v) (name v) (age v) (health_condition v)
           (assigned_camp_id v)
           (food_distributed v + food_delta)
           (medical_kits_distributed v + kits_delta).

(** [UPDATE victims SET ... WHERE victim_id=?] *)
Definition update_victim_distributions
    (vid : Z) (food_delta kits_delta : Z) : Conn unit :=
  execute (fun db =>
    mkDB (camps db) (camps_seq db)
         (map (fun v => if victim_id v =? vid
                        then bump_victim food_delta kits_delta v
                        else v) (victims db))
         (victims_seq db)).

(** ** Resource distribution logic ([app.py]) *)

Local Open Scope conn_scope.

Definition NO_FOOD_WARNING : string :=
  "No food packets available in this camp.".

Definition CRITICAL_SHORTAGE_WARNING : string :=
  "CRITICAL victim — no medical kits available in camp!".

(** [distribute_resources(victim, camp)]: the two snapshots decide the grants,
    the two repositories apply them.  Returns
    [(food_given, kits_given, warnings)]. *)
Definition distribute_resources (victim : Victim) (camp : Camp)
  : Conn (Z * Z * list string) :=
  let food_given := 0 in
  let kits_given := 0 in
  let warnings : list string := [] in
  let '(food_given, warnings) :=
    if available_food camp >? 0 then (1, warnings)
    else (food_given, warnings ++ [NO_FOOD_WARNING]) in
  let '(kits_given, warnings) :=
    if is_critical victim then
      if available_medical_kits camp >? 0 then (1, warnings)
      else (kits_given, warnings ++ [CRITICAL_SHORTAGE_WARNING])
    else
      if available_medical_kits camp >=? 2 then (1, warnings)
      else (kits_given, warnings) in
  update_camp_resources (camp_id camp) (- food_given) (- kits_given) 0 ;;;
  update_victim_distributions (victim_id victim) food_given kits_given ;;;
  ret (food_given, kits_given, warnings).

(** ** Routes *)

(** The POST form of [/camps/add] after [strip] and [int]: [None] stands for
    an [int(...)] that raised [ValueError]. *)
Record CampForm : Type := mkCampForm {
  cf_location : string;
  cf_max_capacity : option Z;
  cf_available_food : option Z;
  cf_available_medical_kits : option Z;
  cf_volunteers : option Z
}.

Inductive AddCampResult : Type :=
| CampInvalidValues
| CampEmptyLocation
| CampBadCapacity
| CampCreated (cid : Z).

(** [add_camp], POST branch. *)
Definition add_camp (f : CampForm) : Conn AddCampResult :=
  match cf_max_capacity f, cf_available_food f,
        cf_available_medical_kits f, cf_volunteers f with
  | Some cap, Some food, Some kits, Some vols =>
      if String.eqb (cf_location f) "" then ret CampEmptyLocation
      else if cap <=? 0 then ret CampBadCapacity
      else
        cid <- create_camp (cf_location f) cap food kits vols ;;
        ret (CampCreated cid)
  | _, _, _, _ => ret CampInvalidValues
  end.

(** The POST form of [/victims/register] after [strip] and [int]. *)
Record VictimForm : Type := mkVictimForm {
  vf_name : string;
  vf_age : option Z;
  vf_health_condition : string;
  vf_camp_id : option Z
}.

Inductive RegisterResult : Type :=
| RegInvalidValues
| RegEmptyName
| RegInvalidAge
| RegInvalidHealth
| RegNoSuchCamp
| RegCampFull (camp : Camp)
| RegUncaught
| Registered (vid food_given kits_given : Z) (warnings : list string).

(** [register_victim], POST branch.  [RegUncaught] collects the exceptions
    the route does not catch: the [IntegrityError] of [create_victim] and the
    attribute access on a [None] snapshot. *)
Definition register_victim (f : VictimForm) : Conn RegisterResult :=
  match vf_age f, vf_camp_id f with
  | Some ag, Some cid =>
      if String.eqb (vf_name f) "" then ret RegEmptyName
      else if (ag <=? 0) || (ag >? 120) then ret RegInvalidAge
      else if negb (String.eqb (vf_health_condition f) "normal"
                    || String.eqb (vf_health_condition f) "critical")
      then ret RegInvalidHealth
      else
        camp <- get_camp cid ;;
        match camp with
        | None => ret RegNoSuchCamp
        | Some camp =>
            if is_full camp then ret (RegCampFull camp)
            else
              update_camp_resources cid 0 0 1 ;;;
              created <- create_victim (vf_name f) ag (vf_health_condition f) cid ;;
              match created with
              | None => ret RegUncaught
              | Some vid =>
                  victim <- get_victim vid ;;
                  camp <- get_camp cid ;;
                  match victim, camp with
                  | Some victim, Some camp =>
                      r <- distribute_resources victim camp ;;
                      let '(food_given, kits_given, warnings) := r in
                      ret (Registered vid food_given kits_given warnings)
                  | _, _ => ret RegUncaught
                  end
              end
        end
  | _, _ => ret RegInvalidValues
  end.

Inductive DistributeResult : Type :=
| DistVictimNotFound
| DistNotAssigned
| Distributed (food_given kits_given : Z) (warnings : list string).

(** [get_camp(victim.assigned_camp_id) if victim.assigned_camp_id else None]:
    both [None] and [0] are falsy. *)
Definition assigned_camp (victim : Victim) : Conn (option Camp) :=
  match assigned_camp_id victim with
  | Some cid => if cid =? 0 then ret None else get_camp cid
  | None => ret None
  end.

(** [do_distribute(victim_id)] *)
Definition do_distribute (vid : Z) : Conn DistributeResult :=
  victim <- get_victim vid ;;
  match victim with
  | None => ret DistVictimNotFound
  | Some victim =>
      camp <- assigned_camp victim ;;
      match camp with
      | None => ret DistNotAssigned
      | Some camp =>
          r <- distribute_resources victim camp ;;
          let '(food_given, kits_given, warnings) := r in
          ret (Distributed food_given kits_given warnings)
      end
  end.

(** ** Report *)

(** Python's [sum] over a generator: a left fold from 0. *)
Definition py_sum (l : list Z) : Z := fold_left Z.add l 0.

(** Python's [max(iterable, key=...)] on a non-empty iterable: the first
    element is the candidate, a later one replaces it only when its key is
    strictly greater. *)
Fixpoint py_max_from {A : Type} (key : A -> Z) (best : A) (l : list A) : A :=
  match l with
  | [] => best
  | x :: l' => py_max_from key (if key x >? key best then x else best) l'
  end.

Definition py_max_by {A : Type} (key : A -> Z) (l : list A) : option A :=
  match l with
  | [] => None
  | x :: l' => Some (py_max_from key x l')
  end.

Record Report : Type := mkReport {
  total_camps : Z;
  total_victims : Z;
  total_food : Z;
  total_medical_kits : Z;
  critical_victims : Z;
  busiest_camp : option Camp
}.

(** [report()]: the values handed to the template. *)
Definition report : Conn Report :=
  cs <- get_all_camps ;;
  vs <- get_all_victims ;;
  ret (mkReport
         (Z.of_nat (List.length cs))
         (Z.of_nat (List.length vs))
         (py_sum (map food_distributed vs))
         (py_sum (map medical_kits_distributed vs))
         (py_sum (map (fun _ => 1) (filter is_critical vs)))
         (py_max_by current_occupancy cs)).

(** * Specification vocabulary *)

(** ** Running a connection block *)

Definition result {A : Type} (m : Conn A) (db : DB) : A := fst (m db).
Definition after {A : Type} (m : Conn A) (db : DB) : DB := snd (m db).

(** The row lookups as plain functions of the database. *)
Definition camp_row (db : DB) (cid : Z) : option Camp := result (get_camp cid) db.
Definition victim_row (db : DB) (vid : Z) : option Victim := result (get_victim vid) db.

(** The components of the triple [distribute_resources] returns. *)
Definition food_given (r : Z * Z * list string) : Z := fst (fst r).
Definition kits_given (r : Z * Z * list string) : Z := snd (fst r).
Definition warnings (r : Z * Z * list string) : list string := snd r.

(** ** The invariant of reachable databases *)

(** What the schema guarantees: primary keys are distinct and positive
    (AUTOINCREMENT rowids start at 1) and every non-null [assigned_camp_id]
    references a camp row. *)
Record wf_db (db : DB) : Prop := mk_wf_db {
  wf_camp_ids : NoDup (map camp_id (camps db));
  wf_camp_pos : Forall (fun c => 0 < camp_id c) (camps db);
  wf_victim_ids : NoDup (map victim_id (victims db));
  wf_victim_pos : Forall (fun v => 0 < victim_id v) (victims db);
  wf_foreign_key :
    Forall (fun v => match assigned_camp_id v with
                     | Some cid => In cid (map camp_id (camps db))
                     | None => True
                     end) (victims db)
}.

(** The invariant on a concrete database, by running the checks. *)
Ltac wf_by_computation :=
  constructor; simpl; repeat constructor; simpl;
  intuition (try discriminate; try lia).

(** The database-changing requests of the application and the state a
    sequence of them leads to. *)
Inductive Request : Type :=
| ReqAddCamp (f : CampForm)
| ReqRegisterVictim (f : VictimForm)
| ReqDistribute (vid : Z)
| ReqReport.

Definition handle (r : Request) (db : DB) : DB :=
  match r with
  | ReqAddCamp f => after (add_camp f) db
  | ReqRegisterVictim f => after (register_victim f) db
  | ReqDistribute vid => after (do_distribute vid) db
  | ReqReport => after report db
  end.

Definition serve (rs : list Request) (db : DB) : DB :=
  fold_left (fun d r => handle r d) rs db.

(** ** Totals *)

Definition sumZ (l : list Z) : Z := fold_right Z.add 0 l.

(** Pooled stock over all camps and cumulative hand-outs over all victims. *)
Definition food_in_stock (db : DB) : Z := sumZ (map available_food (camps db)).
Definition kits_in_stock (db : DB) : Z := sumZ (map available_medical_kits (camps db)).
Definition food_handed_out (db : DB) : Z := sumZ (map food_distributed (victims db)).
Definition kits_handed_out (db : DB) : Z :=
  sumZ (map medical_kits_distributed (victims db)).

(** ** Registration *)

(** A form the validation of [register_victim] lets through. *)
Definition valid_form (f : VictimForm) (ag cid : Z) : Prop :=
  vf_name f <> ""
  /\ vf_age f = Some ag /\ 1 <= ag <= 120
  /\ (vf_health_condition f = "normal" \/ vf_health_condition f = "critical")
  /\ vf_camp_id f = Some cid.

(** The row [create_victim] inserts for a form. *)
Definition new_victim (db : DB) (f : VictimForm) (ag cid : Z) : Victim :=
  mkVictim (next_rowid (victims_seq db) (map victim_id (victims db)))
           (vf_name f) ag (vf_health_condition f) (Some cid) 0 0.

(** The database just before the automatic distribution: occupancy
    incremented, victim row inserted. *)
Definition db_registered (db : DB) (f : VictimForm) (ag cid : Z) : DB :=
  mkDB (camps (after (update_camp_resources cid 0 0 1) db))
       (camps_seq db)
       (victims db ++ [new_victim db f ag cid])
       (victim_id (new_victim db f ag cid)).

(** ** The occupancy percentage as worded *)

(** The formula as the specification words it, without the rounding:
    [current_occupancy / max_capacity * 100]. *)
Definition percentage_as_stated (c : Camp) : PyResult PyNum :=
  match py_truediv (current_occupancy c) (max_capacity c) with
  | Returns q => Returns (PyFloat (py_float_mul_int q 100))
  | Raises e => Raises e
  end.

(** The exact value of a number is the fraction [num / den]. *)
Definition is_exactly (v : PyNum) (num den : Z) : Prop :=
  match v with
  | PyInt n => n * den = num
  | PyFloat (S754_zero _) => num = 0
  | PyFloat (S754_finite s m e) =>
      if 0 <=? e then cond_Zopp s (Zpos m) * 2 ^ e * den = num
      else cond_Zopp s (Zpos m) * den = num * 2 ^ (- e)
  | PyFloat _ => False
  end.

(** ** Sample data *)

(** Rows and databases on which the statements are run. *)
Definition riverside : Camp := mkCamp 1 "Riverside" 10 1 0 2 0.
Definition riverside_db : DB := mkDB [riverside] 1 [] 0.

Definition hillside : Camp := mkCamp 1 "Hillside" 5 3 2 1 1.
Definition asha : Victim := mkVictim 1 "Asha" 30 "normal" (Some 1) 1 0.
Definition hillside_db : DB := mkDB [hillside] 1 [asha] 1.

(** The scenario run from an empty database through the camp form. *)
Definition scenario_camp_form : CampForm :=
  mkCampForm "Riverside" (Some 10) (Some 1) (Some 1) (Some 2).
Definition scenario_db : DB := after (add_camp scenario_camp_form) init_db.
Definition scenario_victim_form : VictimForm :=
  mkVictimForm "Meera" (Some 41) "critical" (Some 1).

(** A camp at capacity and a camp at one third of its capacity. *)
Definition crowded : Camp := mkCamp 1 "Depot" 2 5 5 0 2.
Definition crowded_db : DB := mkDB [crowded] 1 [] 0.
Definition third_full : Camp := mkCamp 1 "Depot" 3 0 0 0 1.

(** * Further routes and vocabulary *)

(** ** Detail and search routes *)

(** [view_camp(camp_id)]: [None] is the redirect after "Camp not found.",
    otherwise the camp and its victims handed to the template. *)
Definition view_camp (cid : Z) : Conn (option (Camp * list Victim)) :=
  camp <- get_camp cid ;;
  match camp with
  | None => ret None
  | Some camp =>
      vs <- get_victims_for_camp cid ;;
      ret (Some (camp, vs))
  end.

Inductive SearchResult : Type :=
| SearchInvalidId
| SearchNotFound
| SearchFound (victim : Victim) (camp : option Camp).

(** [search_victim], POST branch; the argument is [int(request.form["victim_id"])],
    [None] when it raised [ValueError]. *)
Definition search_victim (vid : option Z) : Conn SearchResult :=
  match vid with
  | None => ret SearchInvalidId
  | Some vid =>
      victim <- get_victim vid ;;
      match victim with
      | None => ret SearchNotFound
      | Some victim =>
          camp <- assigned_camp victim ;;
          ret (SearchFound victim camp)
      end
  end.

(** ** Consistency of reachable databases *)

(** The [WHERE assigned_camp_id=?] test of [get_victims_for_camp]. *)
Definition assigned_to (cid : Z) (v : Victim) : bool :=
  match assigned_camp_id v with
  | Some k => k =? cid
  | None => false
  end.

(** The victims a camp's detail page lists. *)
Definition occupants (db : DB) (cid : Z) : list Victim :=
  result (get_victims_for_camp cid) db.

Definition camp_consistent (db : DB) (c : Camp) : Prop :=
  0 < max_capacity c
  /\ 0 <= current_occupancy c <= max_capacity c
  /\ current_occupancy c = Z.of_nat (List.length (occupants db (camp_id c))).

Definition victim_valid (v : Victim) : Prop :=
  name v <> ""
  /\ 1 <= age v <= 120
  /\ (health_condition v = "normal" \/ health_condition v = "critical")
  /\ (exists cid, assigned_camp_id v = Some cid)
  /\ 0 <= food_distributed v
  /\ 0 <= medical_kits_distributed v.

Record consistent (db : DB) : Prop := mk_consistent {
  cons_wf : wf_db db;
  cons_camps : Forall (camp_consistent db) (camps db);
  cons_victims : Forall victim_valid (victims db)
}.

(** ** Stock brought in and handed out *)

(** The stock a request adds to the pool: that of an accepted camp form. *)
Definition food_brought (r : Request) : Z :=
  match r with
  | ReqAddCamp (mkCampForm loc (Some cap) (Some food) (Some _) (Some _)) =>
      if String.eqb loc "" || (cap <=? 0) then 0 else food
  | _ => 0
  end.

Definition kits_brought (r : Request) : Z :=
  match r with
  | ReqAddCamp (mkCampForm loc (Some cap) (Some _) (Some kits) (Some _)) =>
      if String.eqb loc "" || (cap <=? 0) then 0 else kits
  | _ => 0
  end.

(** [n] manual distributions in a row for the same victim. *)
Definition distribute_times (vid : Z) (n : nat) (db : DB) : DB :=
  Nat.iter n (after (do_distribute vid)) db.

(** * The repository on SQLite's 64-bit integers

    The repository functions above compute on [Z].  [sqlite3] binds a Python
    [int] to a statement only when it fits a signed 64-bit integer and raises
    [OverflowError] otherwise; SQLite evaluates [cell + ?] in 64-bit integers
    and, when the sum leaves that range, in floating point, so that the cell
    then holds a REAL; an AUTOINCREMENT table that has used the largest rowid
    refuses further inserts.  This module states the functions of [models.py]
    with these rules; an exception rolls the block back, so nothing is
    written. *)

Module Sqlite.

Definition INT64_MIN : Z := - 2 ^ 63.
Definition INT64_MAX : Z := 2 ^ 63 - 1.

(** A Python [int] that [sqlite3] can bind as a parameter. *)
Definition bindable (z : Z) : bool := (INT64_MIN <=? z) && (z <=? INT64_MAX).

(** [sqlite3.OverflowError] ("Python int too large to convert to SQLite
    INTEGER"), [sqlite3.OperationalError] ("database or disk is full") and
    [sqlite3.IntegrityError] ("FOREIGN KEY constraint failed"). *)
Inductive Error : Type :=
| OverflowError
| OperationalError
| IntegrityError.

Inductive Outcome (A : Type) : Type :=
| Returns (a : A)
| Raises (e : Error).

Arguments Returns {A} a.
Arguments Raises {A} e.

(** What a numeric cell holds after [cell + ?]. *)
Inductive Cell : Type :=
| Integer (z : Z)
| Real (x : spec_float).

(** The conversion of a 64-bit integer to a double. *)
Definition real_of_int (z : Z) : spec_float := binary_normalize prec emax z 0 false.

(** [a + d] as SQLite evaluates it on two integers. *)
Definition add (a d : Z) : Cell :=
  if bindable (a + d) then Integer (a + d)
  else Real (SFadd prec emax (real_of_int a) (real_of_int d)).

(** A camp row after the UPDATE: the three updated columns as cells. *)
Record StoredCamp : Type := mkStoredCamp {
  sc_camp_id : Z;
  sc_location : string;
  sc_max_capacity : Z;
  sc_available_food : Cell;
  sc_available_medical_kits : Cell;
  sc_volunteers : Z;
  sc_current_occupancy : Cell
}.

(** A victim row after the UPDATE: the two counters as cells. *)
Record StoredVictim : Type := mkStoredVictim {
  sv_victim_id : Z;
  sv_name : string;
  sv_age : Z;
  sv_health_condition : string;
  sv_assigned_camp_id : option Z;
  sv_food_distributed : Cell;
  sv_medical_kits_distributed : Cell
}.

Definition kept_camp (c : Camp) : StoredCamp :=
  mkStoredCamp (camp_id c) (location c) (max_capacity c)
               (Integer (available_food c)) (Integer (available_medical_kits c))
               (volunteers c) (Integer (current_occupancy c)).

Definition kept_victim (v : Victim) : StoredVictim :=
  mkStoredVictim (victim_id v) (name v) (age v) (health_condition v)
                 (assigned_camp_id v)
                 (Integer (food_distributed v))
                 (Integer (medical_kits_distributed v)).

(** The row as an all-INTEGER row, when it still is one. *)
Definition as_camp (s : StoredCamp) : option Camp :=
  match sc_available_food s, sc_available_medical_kits s, sc_current_occupancy s with
  | Integer f, Integer k, Integer o =>
      Some (mkCamp (sc_camp_id s) (sc_location s) (sc_max_capacity s) f k
                   (sc_volunteers s) o)
  | _, _, _ => None
  end.


Fixpoint all_some {A B : Type} (f : A -> option B) (l : list A) : option (list B) :=
  match l with
  | [] => Some []
  | a :: l' =>
      match f a, all_some f l' with
      | Some b, Some bs => Some (b :: bs)
      | _, _ => None
      end
  end.

(** [SELECT * FROM camps WHERE camp_id=?] *)
Definition get_camp (cid : Z) (db : DB) : Outcome (option Camp) :=
  if bindable cid then Returns (camp_row db cid) else Raises OverflowError.

(** [SELECT * FROM victims WHERE victim_id=?] *)
Definition get_victim (vid : Z) (db : DB) : Outcome (option Victim) :=
  if bindable vid then Returns (victim_row db vid) else Raises OverflowError.

(** [SELECT * FROM victims WHERE assigned_camp_id=? ORDER BY victim_id] *)
Definition get_victims_for_camp (cid : Z) (db : DB) : Outcome (list Victim) :=
  if bindable cid then Returns (occupants db cid) else Raises OverflowError.

(** [create_camp]: the four numbers are bound, then the rowid is drawn. *)
Definition create_camp (loc : string) (cap food kits vols : Z) (db : DB)
  : Outcome (Z * DB) :=
  if bindable cap && bindable food && bindable kits && bindable vols then
    if next_rowid (camps_seq db) (map camp_id (camps db)) <=? INT64_MAX
    then Returns (create_camp loc cap food kits vols db)
    else Raises OperationalError
  else Raises OverflowError.

(** [create_victim]: age and camp id are bound, the rowid is drawn, and the
    foreign key is checked when the statement ends. *)
Definition create_victim (nm : string) (ag : Z) (hc : string) (cid : Z) (db : DB)
  : Outcome (Z * DB) :=
  if bindable ag && bindable cid then
    if next_rowid (victims_seq db) (map victim_id (victims db)) <=? INT64_MAX
    then match create_victim nm ag hc cid db with
         | (Some vid, db') => Returns (vid, db')
         | (None, _) => Raises IntegrityError
         end
    else Raises OperationalError
  else Raises OverflowError.

(** [update_camp_resources]: the rows of the camps table after the UPDATE. *)
Definition update_camp_resources
    (cid food_delta kits_delta occupancy_delta : Z) (db : DB)
  : Outcome (list StoredCamp) :=
  if bindable food_delta && bindable kits_delta && bindable occupancy_delta
     && bindable cid
  then Returns
         (map (fun c =>
                 if camp_id c =? cid
                 then mkStoredCamp (camp_id c) (location c) (max_capacity c)
                        (add (available_food c) food_delta)
                        (add (available_medical_kits c) kits_delta)
                        (volunteers c)
                        (add (current_occupancy c) occupancy_delta)
                 else kept_camp c) (camps db))
  else Raises OverflowError.

(** [update_victim_distributions]: the rows of the victims table after the
    UPDATE. *)
Definition update_victim_distributions (vid food_delta kits_delta : Z) (db : DB)
  : Outcome (list StoredVictim) :=
  if bindable food_delta && bindable kits_delta && bindable vid
  then Returns
         (map (fun v =>
                 if victim_id v =? vid
                 then mkStoredVictim (victim_id v) (name v) (age v)
                        (health_condition v) (assigned_camp_id v)
                        (add (food_distributed v) food_delta)
                        (add (medical_kits_distributed v) kits_delta)
                 else kept_victim v) (victims db))
  else Raises OverflowError.

(** The database after an UPDATE of the camps table, when every cell is
    still an INTEGER. *)
Definition commit_camps (db : DB) (o : Outcome (list StoredCamp)) : option DB :=
  match o with
  | Returns rows =>
      match all_some as_camp rows with
      | Some l => Some (mkDB l (camps_seq db) (victims db) (victims_seq db))
      | None => None
      end
  | Raises _ => None
  end.




End Sqlite.

(** ** Requests that stay within 64 bits *)

(** The numbers of a camp form, once parsed, can all be bound. *)
Definition camp_form_bindable (f : CampForm) : Prop :=
  forall n,
    In (Some n) [cf_max_capacity f; cf_available_food f;
                 cf_available_medical_kits f; cf_volunteers f] ->
    Sqlite.bindable n = true.

Definition request_bindable (r : Request) : Prop :=
  match r with
  | ReqAddCamp f => camp_form_bindable f
  | _ => True
  end.

(** The tables have not used the largest rowid. *)
Definition camps_have_room (db : DB) : Prop :=
  next_rowid (camps_seq db) (map camp_id (camps db)) <= Sqlite.INT64_MAX.

Definition victims_have_room (db : DB) : Prop :=
  next_rowid (victims_seq db) (map victim_id (victims db)) <= Sqlite.INT64_MAX.

(** The scenario as a run of requests. *)
Definition scenario_requests : list Request :=
  [ReqAddCamp scenario_camp_form; ReqRegisterVictim scenario_victim_form].


(** * Properties *)

(** ** [UPDATE ... WHERE key=?] on a table keyed by an integer column *)

Section KeyedTable.
Variable A : Type.
Variable key : A -> Z.
Variable set : A -> A.
Variable k : Z.

Let upd (a : A) : A := if key a =? k then set a else a.

Hypothesis key_set : forall a, key (set a) = key a.

Lemma key_upd a : key (upd a) = key a.
Proof. unfold upd. destruct (key a =? k); auto. Qed.

Lemma keys_update l : map key (map upd l) = map key l.
Proof.
  rewrite map_map. apply map_ext. exact key_upd.
Qed.

Lemma find_update_same l :
  find (fun a => key a =? k) (map upd l)
  = option_map set (find (fun a => key a =? k) l).
Proof.
  induction l as [|a l IH]; simpl; [reflexivity|].
  rewrite key_upd. destruct (key a =? k) eqn:E; [|exact IH].
  unfold upd. rewrite E. reflexivity.
Qed.

Lemma find_update_other k' l :
  k' <> k ->
  find (fun a => key a =? k') (map upd l) = find (fun a => key a =? k') l.
Proof.
  intros Hne. induction l as [|a l IH]; simpl; [reflexivity|].
  rewrite key_upd. destruct (key a =? k') eqn:E; [|exact IH].
  unfold upd. destruct (key a =? k) eqn:E'; [|reflexivity].
  apply Z.eqb_eq in E, E'. congruence.
Qed.

Lemma update_absent l :
  find (fun a => key a =? k) l = None -> map upd l = l.
Proof.
  induction l as [|a l IH]; simpl; [reflexivity|].
  unfold upd at 1. destruct (key a =? k); [discriminate|].
  intros H. f_equal. auto.
Qed.

End KeyedTable.

Lemma update_neutral (A : Type) (key : A -> Z) (set : A -> A) (k : Z) (l : list A) :
  (forall a, set a = a) ->
  map (fun a => if key a =? k then set a else a) l = l.
Proof.
  intros Hid. rewrite <- (map_id l) at 2. apply map_ext.
  intros a. destruct (key a =? k); auto.
Qed.

Lemma bump_camp_id fd kd od c : camp_id (bump_camp fd kd od c) = camp_id c.
Proof. reflexivity. Qed.

Lemma bump_victim_id fd kd v : victim_id (bump_victim fd kd v) = victim_id v.
Proof. reflexivity. Qed.

Lemma bump_camp_zero c : bump_camp (- 0) (- 0) 0 c = c.
Proof.
  destruct c; unfold bump_camp; simpl. now rewrite !Z.add_0_r.
Qed.

Lemma bump_victim_zero v : bump_victim 0 0 v = v.
Proof.
  destruct v; unfold bump_victim; simpl. now rewrite !Z.add_0_r.
Qed.

(** ** The camp delta-update *)

Lemma camp_row_update_same cid fd kd od db :
  camp_row (after (update_camp_resources cid fd kd od) db) cid
  = option_map (bump_camp fd kd od) (camp_row db cid).
Proof.
  unfold camp_row, result, after, update_camp_resources, get_camp, query, execute.
  simpl. apply find_update_same. intros; apply bump_camp_id.
Qed.

Lemma camp_row_update_other cid fd kd od db cid' :
  cid' <> cid ->
  camp_row (after (update_camp_resources cid fd kd od) db) cid' = camp_row db cid'.
Proof.
  intros Hne.
  unfold camp_row, result, after, update_camp_resources, get_camp, query, execute.
  simpl. apply find_update_other; [intros; apply bump_camp_id | assumption].
Qed.

Lemma victim_row_update_camp cid fd kd od db vid :
  victim_row (after (update_camp_resources cid fd kd od) db) vid = victim_row db vid.
Proof. reflexivity. Qed.

Lemma victim_row_update_same vid fd kd db :
  victim_row (after (update_victim_distributions vid fd kd) db) vid
  = option_map (bump_victim fd kd) (victim_row db vid).
Proof.
  unfold victim_row, result, after, update_victim_distributions, get_victim, query, execute.
  simpl. apply find_update_same. intros; apply bump_victim_id.
Qed.

Lemma camp_row_update_victim vid fd kd db cid :
  camp_row (after (update_victim_distributions vid fd kd) db) cid = camp_row db cid.
Proof. reflexivity. Qed.

(** ** The distribution engine *)

(** The straight-line reading of [distribute_resources]. *)
Lemma distribute_resources_unfold (victim : Victim) (camp : Camp) (db : DB) :
  distribute_resources victim camp db =
  let f := if available_food camp >? 0 then 1 else 0 in
  let k := if is_critical victim
           then (if available_medical_kits camp >? 0 then 1 else 0)
           else (if available_medical_kits camp >=? 2 then 1 else 0) in
  let w := (if available_food camp >? 0 then [] else [NO_FOOD_WARNING])
           ++ (if is_critical victim
               then (if available_medical_kits camp >? 0 then []
                     else [CRITICAL_SHORTAGE_WARNING])
               else []) in
  (f, k, w,
   after (update_victim_distributions (victim_id victim) f k)
     (after (update_camp_resources (camp_id camp) (- f) (- k) 0) db)).
Proof.
  unfold distribute_resources.
  destruct (available_food camp >? 0), (is_critical victim),
           (available_medical_kits camp >? 0),
           (available_medical_kits camp >=? 2); reflexivity.
Qed.

Lemma is_critical_iff (v : Victim) :
  is_critical v = true <-> health_condition v = "critical".
Proof. unfold is_critical. apply String.eqb_eq. Qed.

Lemma is_critical_false_iff (v : Victim) :
  is_critical v = false <-> health_condition v <> "critical".
Proof. unfold is_critical. apply String.eqb_neq. Qed.

Lemma warnings_differ : NO_FOOD_WARNING <> CRITICAL_SHORTAGE_WARNING.
Proof. discriminate. Qed.

(** C1. The medical-kit grant of a distribution follows the priority rule.
    For a critical victim: 1 kit when the camp snapshot has
    available_medical_kits > 0, otherwise 0 kits and the critical-shortage
    warning.  For a victim that is not critical (a normal one): 1 kit when
    available_medical_kits >= 2, otherwise 0 kits; in both cases the kit step
    emits no warning, so the warnings are those of the food step alone. *)
Theorem medical_kit_priority_rule (victim : Victim) (camp : Camp) (db : DB) :
  (health_condition victim = "critical" ->
     (available_medical_kits camp > 0 ->
        kits_given (result (distribute_resources victim camp) db) = 1
        /\ ~ In CRITICAL_SHORTAGE_WARNING
                (warnings (result (distribute_resources victim camp) db)))
     /\ (available_medical_kits camp <= 0 ->
        kits_given (result (distribute_resources victim camp) db) = 0
        /\ In CRITICAL_SHORTAGE_WARNING
                (warnings (result (distribute_resources victim camp) db))))
  /\ (health_condition victim <> "critical" ->
     (available_medical_kits camp >= 2 ->
        kits_given (result (distribute_resources victim camp) db) = 1)
     /\ (available_medical_kits camp < 2 ->
        kits_given (result (distribute_resources victim camp) db) = 0)
     /\ warnings (result (distribute_resources victim camp) db)
        = (if available_food camp >? 0 then [] else [NO_FOOD_WARNING])
     /\ ~ In CRITICAL_SHORTAGE_WARNING
             (warnings (result (distribute_resources victim camp) db))).
Proof.
  unfold result. rewrite distribute_resources_unfold. cbv zeta.
  unfold kits_given, warnings. simpl fst. simpl snd.
  split.
  - intros Hc. apply is_critical_iff in Hc. rewrite Hc.
    split; intros Hk.
    + replace (available_medical_kits camp >? 0) with true
        by (symmetry; apply Z.gtb_lt; lia).
      split; [reflexivity|]. rewrite app_nil_r.
      destruct (available_food camp >? 0); simpl; [tauto|].
      intros [H|[]]. exact (warnings_differ H).
    + replace (available_medical_kits camp >? 0) with false
        by (symmetry; rewrite Z.gtb_ltb; apply Z.ltb_ge; lia).
      split; [reflexivity|]. apply in_or_app. right. left. reflexivity.
  - intros Hn. apply is_critical_false_iff in Hn. rewrite Hn.
    rewrite app_nil_r. repeat split.
    + intros Hk. replace (available_medical_kits camp >=? 2) with true
        by (symmetry; rewrite Z.geb_leb; apply Z.leb_le; lia). reflexivity.
    + intros Hk. replace (available_medical_kits camp >=? 2) with false
        by (symmetry; rewrite Z.geb_leb; apply Z.leb_gt; lia). reflexivity.
    + destruct (available_food camp >? 0); simpl; [tauto|].
      intros [H|[]]. exact (warnings_differ H).
Qed.

Lemma food_given_values (victim : Victim) (camp : Camp) (db : DB) :
  food_given (result (distribute_resources victim camp) db)
  = if available_food camp >? 0 then 1 else 0.
Proof. unfold result. now rewrite distribute_resources_unfold. Qed.

Lemma kits_given_values (victim : Victim) (camp : Camp) (db : DB) :
  kits_given (result (distribute_resources victim camp) db)
  = if is_critical victim
    then (if available_medical_kits camp >? 0 then 1 else 0)
    else (if available_medical_kits camp >=? 2 then 1 else 0).
Proof. unfold result. now rewrite distribute_resources_unfold. Qed.

Lemma grants_nonneg (victim : Victim) (camp : Camp) (db : DB) :
  0 <= food_given (result (distribute_resources victim camp) db) <= 1
  /\ 0 <= kits_given (result (distribute_resources victim camp) db) <= 1.
Proof.
  rewrite food_given_values, kits_given_values.
  destruct (available_food camp >? 0), (is_critical victim),
           (available_medical_kits camp >? 0),
           (available_medical_kits camp >=? 2); lia.
Qed.

Lemma db_after_distribute (victim : Victim) (camp : Camp) (db : DB) :
  after (distribute_resources victim camp) db
  = after (update_victim_distributions (victim_id victim)
             (food_given (result (distribute_resources victim camp) db))
             (kits_given (result (distribute_resources victim camp) db)))
      (after (update_camp_resources (camp_id camp)
                (- food_given (result (distribute_resources victim camp) db))
                (- kits_given (result (distribute_resources victim camp) db)) 0)
         db).
Proof.
  unfold result, after at 1. now rewrite distribute_resources_unfold.
Qed.

(** What the manual-distribution route does once the victim and the camp are
    found. *)
Lemma do_distribute_found (db : DB) (vid cid : Z) (v : Victim) (c : Camp) :
  victim_row db vid = Some v ->
  assigned_camp_id v = Some cid ->
  cid <> 0 ->
  camp_row db cid = Some c ->
  do_distribute vid db
  = (Distributed (food_given (result (distribute_resources v c) db))
                 (kits_given (result (distribute_resources v c) db))
                 (warnings (result (distribute_resources v c) db)),
     after (distribute_resources v c) db).
Proof.
  unfold victim_row, camp_row, result, after. intros Hv Ha Hz Hc.
  unfold do_distribute, bind, assigned_camp.
  unfold get_victim, query in *. simpl in Hv. rewrite Hv, Ha.
  apply Z.eqb_neq in Hz. rewrite Hz.
  unfold get_camp, query in *. simpl in Hc. rewrite Hc.
  destruct (distribute_resources v c db) as [[[f k] w] db']. reflexivity.
Qed.

(** C2. In every distribution exactly 1 food unit is granted if and only if
    the camp snapshot has available_food > 0, and the grant is 0 or 1.  With
    available_food = 0 the grant is 0 and the no-food warning is in the
    returned warnings (it is their first entry); the invocation still returns
    its triple, and the manual-distribution route that runs it on a found
    victim and camp ends in its normal outcome, not in an error. *)
Theorem food_grant_rule (victim : Victim) (camp : Camp) (db : DB) :
  (food_given (result (distribute_resources victim camp) db) = 1
     <-> available_food camp > 0)
  /\ (food_given (result (distribute_resources victim camp) db) = 0
      \/ food_given (result (distribute_resources victim camp) db) = 1)
  /\ (available_food camp = 0 ->
        food_given (result (distribute_resources victim camp) db) = 0
        /\ In NO_FOOD_WARNING
              (warnings (result (distribute_resources victim camp) db))
        /\ hd_error (warnings (result (distribute_resources victim camp) db))
           = Some NO_FOOD_WARNING
        /\ (forall vid,
              victim_row db vid = Some victim ->
              assigned_camp_id victim = Some (camp_id camp) ->
              camp_id camp <> 0 ->
              camp_row db (camp_id camp) = Some camp ->
              exists kits ws,
                result (do_distribute vid) db = Distributed 0 kits ws
                /\ In NO_FOOD_WARNING ws)).
Proof.
  split; [|split].
  - rewrite food_given_values.
    destruct (Z.gtb_spec (available_food camp) 0); split; intros; lia.
  - rewrite food_given_values. destruct (available_food camp >? 0); auto.
  - intros H0.
    assert (Hf : food_given (result (distribute_resources victim camp) db) = 0).
    { rewrite food_given_values, H0. reflexivity. }
    assert (Hw : exists ws, warnings (result (distribute_resources victim camp) db)
                            = NO_FOOD_WARNING :: ws).
    { unfold result. rewrite distribute_resources_unfold. cbv zeta.
      unfold warnings. simpl snd. rewrite H0. simpl. eauto. }
    destruct Hw as [ws Hw].
    split; [exact Hf|]. split; [rewrite Hw; now left|].
    split; [rewrite Hw; reflexivity|].
    intros vid Hv Ha Hz Hc.
    unfold result at 1. rewrite (do_distribute_found db vid _ victim camp Hv Ha Hz Hc).
    simpl. rewrite Hf. do 2 eexists. split; [reflexivity|].
    rewrite Hw. now left.
Qed.

(** ** Rows after a distribution *)

Lemma camp_row_after_distribute (victim : Victim) (camp : Camp) (db : DB) :
  camp_row (after (distribute_resources victim camp) db) (camp_id camp)
  = option_map
      (bump_camp (- food_given (result (distribute_resources victim camp) db))
                 (- kits_given (result (distribute_resources victim camp) db)) 0)
      (camp_row db (camp_id camp)).
Proof.
  rewrite db_after_distribute, camp_row_update_victim.
  apply camp_row_update_same.
Qed.

Lemma victim_row_after_distribute (victim : Victim) (camp : Camp) (db : DB) :
  victim_row (after (distribute_resources victim camp) db) (victim_id victim)
  = option_map
      (bump_victim (food_given (result (distribute_resources victim camp) db))
                   (kits_given (result (distribute_resources victim camp) db)))
      (victim_row db (victim_id victim)).
Proof.
  rewrite db_after_distribute, victim_row_update_same.
  rewrite victim_row_update_camp. reflexivity.
Qed.

(** C4. In every distribution the grants food_given and kits_given are
    non-negative, the camp's available_food and available_medical_kits are
    decremented by exactly those amounts (its occupancy is not touched) and
    the victim's food_distributed and medical_kits_distributed are incremented
    by exactly those amounts; so the camp deltas are <= 0 and the victim
    deltas are >= 0. *)
Theorem distribution_applies_grants
    (victim : Victim) (camp : Camp) (db : DB) (c0 : Camp) (v0 : Victim) :
  camp_row db (camp_id camp) = Some c0 ->
  victim_row db (victim_id victim) = Some v0 ->
  exists c1 v1,
    camp_row (after (distribute_resources victim camp) db) (camp_id camp) = Some c1
    /\ victim_row (after (distribute_resources victim camp) db) (victim_id victim)
       = Some v1
    /\ 0 <= food_given (result (distribute_resources victim camp) db)
    /\ 0 <= kits_given (result (distribute_resources victim camp) db)
    /\ available_food c1
       = available_food c0 - food_given (result (distribute_resources victim camp) db)
    /\ available_medical_kits c1
       = available_medical_kits c0
         - kits_given (result (distribute_resources victim camp) db)
    /\ current_occupancy c1 = current_occupancy c0
    /\ food_distributed v1
       = food_distributed v0 + food_given (result (distribute_resources victim camp) db)
    /\ medical_kits_distributed v1
       = medical_kits_distributed v0
         + kits_given (result (distribute_resources victim camp) db)
    /\ available_food c1 - available_food c0 <= 0
    /\ available_medical_kits c1 - available_medical_kits c0 <= 0
    /\ 0 <= food_distributed v1 - food_distributed v0
    /\ 0 <= medical_kits_distributed v1 - medical_kits_distributed v0.
Proof.
  intros Hc Hv.
  rewrite camp_row_after_distribute, victim_row_after_distribute, Hc, Hv.
  destruct (grants_nonneg victim camp db) as [[Hf _] [Hk _]].
  do 2 eexists. split; [reflexivity|]. split; [reflexivity|].
  simpl. repeat split; lia.
Qed.

(** ** The invariant of reachable databases *)

Lemma next_rowid_above (seq : Z) (ids : list Z) (i : Z) :
  In i ids -> i < next_rowid seq ids.
Proof.
  unfold next_rowid. induction ids as [|j ids IH]; simpl; [tauto|].
  intros [->|Hin]; [lia|]. specialize (IH Hin). lia.
Qed.

Lemma next_rowid_pos (seq : Z) (ids : list Z) : 0 < next_rowid seq ids.
Proof.
  unfold next_rowid.
  assert (0 <= fold_right Z.max 0 ids) by (induction ids; simpl; lia). lia.
Qed.

Lemma next_rowid_fresh (seq : Z) (ids : list Z) : ~ In (next_rowid seq ids) ids.
Proof. intros Hin. apply (next_rowid_above seq) in Hin. lia. Qed.

Lemma NoDup_snoc (ids : list Z) (i : Z) :
  NoDup ids -> ~ In i ids -> NoDup (ids ++ [i]).
Proof.
  intros Hnd Hni. apply NoDup_app; [assumption | repeat constructor; simpl; tauto |].
  intros j Hj [<-|[]]. contradiction.
Qed.

Lemma find_key_In (A : Type) (key : A -> Z) (k : Z) (l : list A) (a : A) :
  find (fun x => key x =? k) l = Some a -> In a l /\ key a = k.
Proof.
  intros H. apply find_some in H. destruct H as [Hin Hk].
  apply Z.eqb_eq in Hk. auto.
Qed.

Lemma find_key_absent (A : Type) (key : A -> Z) (k : Z) (l : list A) :
  ~ In k (map key l) -> find (fun x => key x =? k) l = None.
Proof.
  intros Hni. destruct (find _ l) as [a|] eqn:E; [|reflexivity].
  apply find_key_In in E. destruct E as [Hin <-].
  exfalso. apply Hni. now apply in_map.
Qed.

Lemma find_key_snoc_fresh (A : Type) (key : A -> Z) (l : list A) (a : A) :
  ~ In (key a) (map key l) ->
  find (fun x => key x =? key a) (l ++ [a]) = Some a.
Proof.
  intros Hni. induction l as [|b l IH]; simpl.
  - now rewrite Z.eqb_refl.
  - simpl in Hni. destruct (key b =? key a) eqn:E.
    + apply Z.eqb_eq in E. tauto.
    + apply IH. tauto.
Qed.

Lemma camp_row_In db cid c :
  camp_row db cid = Some c -> In c (camps db) /\ camp_id c = cid.
Proof. apply find_key_In. Qed.

Lemma victim_row_In db vid v :
  victim_row db vid = Some v -> In v (victims db) /\ victim_id v = vid.
Proof. apply find_key_In. Qed.

Lemma camp_row_exists db cid :
  existsb (fun c => camp_id c =? cid) (camps db) = true <->
  exists c, camp_row db cid = Some c.
Proof.
  unfold camp_row, result, get_camp, query. simpl. split.
  - intros He. apply existsb_exists in He. destruct He as [c [Hin Hk]].
    destruct (find _ (camps db)) as [c'|] eqn:E; [eauto|].
    exfalso. apply (find_none _ _ E) in Hin. simpl in Hin. congruence.
  - intros [c Hc]. apply find_some in Hc. apply existsb_exists. eauto.
Qed.

Lemma wf_init_db : wf_db init_db.
Proof. constructor; simpl; constructor. Qed.

Lemma wf_update_camp_resources db cid fd kd od :
  wf_db db -> wf_db (after (update_camp_resources cid fd kd od) db).
Proof.
  intros [H1 H2 H3 H4 H5].
  assert (Hk : map camp_id (camps (after (update_camp_resources cid fd kd od) db))
               = map camp_id (camps db)).
  { unfold after, update_camp_resources, execute. simpl.
    apply keys_update. intros; apply bump_camp_id. }
  constructor; try assumption.
  - rewrite Hk. assumption.
  - apply Forall_forall. intros c Hin.
    unfold after, update_camp_resources, execute in Hin. simpl in Hin.
    apply in_map_iff in Hin. destruct Hin as [c0 [<- Hin]].
    rewrite Forall_forall in H2. specialize (H2 _ Hin).
    destruct (camp_id c0 =? cid); assumption.
  - rewrite Hk. assumption.
Qed.

Lemma wf_update_victim_distributions db vid fd kd :
  wf_db db -> wf_db (after (update_victim_distributions vid fd kd) db).
Proof.
  intros [H1 H2 H3 H4 H5].
  unfold after, update_victim_distributions, execute. simpl.
  constructor; simpl; try assumption.
  - rewrite keys_update; [assumption | intros; apply bump_victim_id].
  - apply Forall_forall. intros v Hin.
    apply in_map_iff in Hin. destruct Hin as [v0 [<- Hin]].
    rewrite Forall_forall in H4. specialize (H4 _ Hin).
    destruct (victim_id v0 =? vid); assumption.
  - apply Forall_forall. intros v Hin.
    apply in_map_iff in Hin. destruct Hin as [v0 [<- Hin]].
    rewrite Forall_forall in H5. specialize (H5 _ Hin).
    destruct (victim_id v0 =? vid); assumption.
Qed.

Lemma wf_create_camp db loc cap food kits vols :
  wf_db db -> wf_db (after (create_camp loc cap food kits vols) db).
Proof.
  intros [H1 H2 H3 H4 H5].
  unfold after, create_camp. simpl.
  constructor; simpl; try assumption.
  - rewrite map_app. simpl. apply NoDup_snoc; [assumption|].
    apply next_rowid_fresh.
  - apply Forall_app. split; [assumption|].
    repeat constructor. simpl. apply next_rowid_pos.
  - eapply Forall_impl; [|exact H5]. intros v Hv. simpl in Hv.
    destruct (assigned_camp_id v); [|exact I].
    rewrite map_app. apply in_or_app. now left.
Qed.

Lemma wf_create_victim db nm ag hc cid :
  wf_db db -> wf_db (after (create_victim nm ag hc cid) db).
Proof.
  intros Hwf. unfold after, create_victim.
  destruct (existsb _ (camps db)) eqn:E; [|exact Hwf].
  destruct Hwf as [H1 H2 H3 H4 H5].
  constructor; simpl; try assumption.
  - rewrite map_app. simpl. apply NoDup_snoc; [assumption|].
    apply next_rowid_fresh.
  - apply Forall_app. split; [assumption|].
    repeat constructor. simpl. apply next_rowid_pos.
  - apply Forall_app. split; [assumption|].
    repeat constructor. simpl.
    apply existsb_exists in E. destruct E as [c [Hin Hk]].
    apply Z.eqb_eq in Hk. subst cid. now apply in_map.
Qed.

Lemma wf_distribute_resources db victim camp :
  wf_db db -> wf_db (after (distribute_resources victim camp) db).
Proof.
  intros Hwf. rewrite db_after_distribute.
  now apply wf_update_victim_distributions, wf_update_camp_resources.
Qed.

(** ** Conservation of stock *)

Section KeyedSum.
Variable A : Type.
Variable key : A -> Z.
Variable set : A -> A.
Variable k : Z.
Variable g : A -> Z.

(** Updating the one row with key [k] moves the column total by the change
    of that row. *)
Lemma sum_update_unique l a :
  NoDup (map key l) ->
  find (fun x => key x =? k) l = Some a ->
  sumZ (map g (map (fun x => if key x =? k then set x else x) l))
  = sumZ (map g l) - g a + g (set a).
Proof.
  induction l as [|b l IH]; simpl; [discriminate|].
  intros Hnd Hf. inversion Hnd as [|? ? Hni Hnd']; subst.
  destruct (key b =? k) eqn:E.
  - injection Hf as ->. apply Z.eqb_eq in E. subst k.
    rewrite update_absent by (now apply find_key_absent). lia.
  - rewrite (IH Hnd' Hf). lia.
Qed.
End KeyedSum.

(** Database-wide totals across one distribution. *)
Lemma distribute_resources_totals
    (victim : Victim) (camp : Camp) (db : DB) (c0 : Camp) (v0 : Victim) :
  wf_db db ->
  camp_row db (camp_id camp) = Some c0 ->
  victim_row db (victim_id victim) = Some v0 ->
  food_in_stock (after (distribute_resources victim camp) db)
  + food_handed_out (after (distribute_resources victim camp) db)
  = food_in_stock db + food_handed_out db
  /\ kits_in_stock (after (distribute_resources victim camp) db)
     + kits_handed_out (after (distribute_resources victim camp) db)
     = kits_in_stock db + kits_handed_out db.
Proof.
  intros Hwf Hc Hv. rewrite db_after_distribute.
  set (f := food_given _). set (kk := kits_given _).
  unfold food_in_stock, kits_in_stock, food_handed_out, kits_handed_out.
  unfold after, update_victim_distributions, update_camp_resources, execute.
  simpl.
  unfold camp_row, victim_row, result, get_camp, get_victim, query in Hc, Hv.
  simpl in Hc, Hv.
  destruct Hwf as [H1 _ H3 _ _].
  rewrite !(sum_update_unique _ camp_id _ _ _ _ c0 H1 Hc).
  rewrite !(sum_update_unique _ victim_id _ _ _ _ v0 H3 Hv).
  simpl. split; lia.
Qed.

(** C9. Every distribution conserves each resource.  For food and for medical
    kits, the camp's available stock plus the victim's cumulative counter is
    the same after the invocation as before it (the camp loses exactly what
    the victim gains); and over the whole database the pooled stock plus the
    cumulative hand-outs is unchanged, so no stock is created or destroyed. *)
Theorem distribution_conserves_stock
    (victim : Victim) (camp : Camp) (db : DB) (c0 : Camp) (v0 : Victim) :
  wf_db db ->
  camp_row db (camp_id camp) = Some c0 ->
  victim_row db (victim_id victim) = Some v0 ->
  (exists c1 v1,
     camp_row (after (distribute_resources victim camp) db) (camp_id camp) = Some c1
     /\ victim_row (after (distribute_resources victim camp) db) (victim_id victim)
        = Some v1
     /\ available_food c1 + food_distributed v1
        = available_food c0 + food_distributed v0
     /\ available_medical_kits c1 + medical_kits_distributed v1
        = available_medical_kits c0 + medical_kits_distributed v0
     /\ available_food c0 - available_food c1
        = food_distributed v1 - food_distributed v0
     /\ available_medical_kits c0 - available_medical_kits c1
        = medical_kits_distributed v1 - medical_kits_distributed v0)
  /\ food_in_stock (after (distribute_resources victim camp) db)
     + food_handed_out (after (distribute_resources victim camp) db)
     = food_in_stock db + food_handed_out db
  /\ kits_in_stock (after (distribute_resources victim camp) db)
     + kits_handed_out (after (distribute_resources victim camp) db)
     = kits_in_stock db + kits_handed_out db.
Proof.
  intros Hwf Hc Hv. split.
  - rewrite camp_row_after_distribute, victim_row_after_distribute, Hc, Hv.
    do 2 eexists. split; [reflexivity|]. split; [reflexivity|].
    simpl. repeat split; lia.
  - exact (distribute_resources_totals victim camp db c0 v0 Hwf Hc Hv).
Qed.

Lemma wf_hillside_db : wf_db hillside_db.
Proof. wf_by_computation. Qed.

Lemma distribution_applies_grants_witness :
  camp_row hillside_db (camp_id hillside) = Some hillside
  /\ victim_row hillside_db (victim_id asha) = Some asha
  /\ exists c1 v1,
       camp_row (after (distribute_resources asha hillside) hillside_db) 1 = Some c1
       /\ victim_row (after (distribute_resources asha hillside) hillside_db) 1
          = Some v1
       /\ available_food c1 = 3 - 1
       /\ available_medical_kits c1 = 2 - 1
       /\ food_distributed v1 = 1 + 1
       /\ medical_kits_distributed v1 = 0 + 1.
Proof.
  split; [reflexivity|]. split; [reflexivity|].
  destruct (distribution_applies_grants asha hillside hillside_db hillside asha
              eq_refl eq_refl)
    as (c1 & v1 & Hc & Hv & _ & _ & Hf & Hk & _ & Hvf & Hvk & _).
  exists c1, v1. repeat split; assumption.
Defined.

Lemma distribution_conserves_stock_witness :
  wf_db hillside_db
  /\ camp_row hillside_db (camp_id hillside) = Some hillside
  /\ victim_row hillside_db (victim_id asha) = Some asha
  /\ food_in_stock (after (distribute_resources asha hillside) hillside_db)
     + food_handed_out (after (distribute_resources asha hillside) hillside_db)
     = 3 + 1
  /\ kits_in_stock (after (distribute_resources asha hillside) hillside_db)
     + kits_handed_out (after (distribute_resources asha hillside) hillside_db)
     = 2 + 0.
Proof.
  split; [exact wf_hillside_db|]. split; [reflexivity|]. split; [reflexivity|].
  destruct (distribution_conserves_stock asha hillside hillside_db hillside asha
              wf_hillside_db eq_refl eq_refl) as (_ & Hf & Hk).
  split; assumption.
Defined.

(** ** Registration *)

Lemma camp_row_db_registered (db : DB) (f : VictimForm) (ag cid : Z) (c : Camp) :
  camp_row db cid = Some c ->
  camp_row (db_registered db f ag cid) cid = Some (bump_camp 0 0 1 c).
Proof.
  intros Hc.
  change (camp_row (db_registered db f ag cid) cid)
    with (camp_row (after (update_camp_resources cid 0 0 1) db) cid).
  rewrite camp_row_update_same, Hc. reflexivity.
Qed.

Lemma victim_row_db_registered (db : DB) (f : VictimForm) (ag cid : Z) :
  victim_row (db_registered db f ag cid) (victim_id (new_victim db f ag cid))
  = Some (new_victim db f ag cid).
Proof.
  unfold victim_row, result, get_victim, query, db_registered. simpl fst.
  simpl victims.
  apply (find_key_snoc_fresh Victim victim_id (victims db)
           (new_victim db f ag cid)).
  simpl. apply next_rowid_fresh.
Qed.

Lemma register_victim_accepted (f : VictimForm) (ag cid : Z) (db : DB) (c : Camp) :
  valid_form f ag cid ->
  camp_row db cid = Some c ->
  is_full c = false ->
  register_victim f db
  = (Registered
       (victim_id (new_victim db f ag cid))
       (food_given (result (distribute_resources (new_victim db f ag cid)
                              (bump_camp 0 0 1 c)) (db_registered db f ag cid)))
       (kits_given (result (distribute_resources (new_victim db f ag cid)
                              (bump_camp 0 0 1 c)) (db_registered db f ag cid)))
       (warnings (result (distribute_resources (new_victim db f ag cid)
                              (bump_camp 0 0 1 c)) (db_registered db f ag cid))),
     after (distribute_resources (new_victim db f ag cid) (bump_camp 0 0 1 c))
       (db_registered db f ag cid)).
Proof.
  intros (Hname & Hage & Hrange & Hhc & Hcid) Hc Hfull.
  unfold register_victim. rewrite Hage, Hcid.
  apply String.eqb_neq in Hname. rewrite Hname.
  replace ((ag <=? 0) || (ag >? 120)) with false
    by (symmetry; apply orb_false_intro;
        [apply Z.leb_gt | rewrite Z.gtb_ltb; apply Z.ltb_ge]; lia).
  replace (negb _) with false
    by (destruct Hhc as [-> | ->]; reflexivity).
  unfold bind at 1.
  assert (Hc' := Hc). unfold camp_row, result in Hc'.
  destruct (get_camp cid db) as [oc db0] eqn:Eg.
  assert (db0 = db) by (unfold get_camp, query in Eg; congruence). subst db0.
  simpl in Hc'. subst oc. rewrite Hfull.
  unfold bind at 1.
  destruct (update_camp_resources cid 0 0 1 db) as [[] db1] eqn:Eu.
  assert (Hdb1 : db1 = after (update_camp_resources cid 0 0 1) db)
    by (unfold after; now rewrite Eu).
  assert (Hrow1 : camp_row db1 cid = Some (bump_camp 0 0 1 c))
    by (rewrite Hdb1, camp_row_update_same, Hc; reflexivity).
  unfold bind at 1. unfold create_victim.
  replace (existsb (fun c0 => camp_id c0 =? cid) (camps db1)) with true
    by (symmetry; apply camp_row_exists; eauto).
  assert (Hv1 : victims db1 = victims db) by (rewrite Hdb1; reflexivity).
  assert (Hs1 : victims_seq db1 = victims_seq db) by (rewrite Hdb1; reflexivity).
  assert (Hcs1 : camps_seq db1 = camps_seq db) by (rewrite Hdb1; reflexivity).
  rewrite Hv1, Hs1, Hcs1.
  fold (new_victim db f ag cid).
  replace (mkDB (camps db1) (camps_seq db)
             (victims db ++ [new_victim db f ag cid])
             (next_rowid (victims_seq db) (map victim_id (victims db))))
    with (db_registered db f ag cid)
    by (unfold db_registered; rewrite Hdb1; reflexivity).
  unfold bind at 1. unfold get_victim at 1. unfold query at 1.
  replace (find _ (victims (db_registered db f ag cid)))
    with (Some (new_victim db f ag cid)).
  2:{ symmetry. apply victim_row_db_registered. }
  unfold bind at 1. unfold get_camp at 1. unfold query at 1.
  replace (find _ (camps (db_registered db f ag cid)))
    with (Some (bump_camp 0 0 1 c)).
  2:{ symmetry. now apply camp_row_db_registered. }
  unfold bind, result, after.
  destruct (distribute_resources _ _ _) as [[[fg kg] w] db3]. reflexivity.
Qed.

(** A distribution that grants nothing leaves the database as it was: both
    delta-updates are issued with zero deltas. *)
Lemma distribute_nothing_neutral (victim : Victim) (camp : Camp) (db : DB) :
  food_given (result (distribute_resources victim camp) db) = 0 ->
  kits_given (result (distribute_resources victim camp) db) = 0 ->
  after (distribute_resources victim camp) db = db.
Proof.
  intros Hf Hk. rewrite db_after_distribute, Hf, Hk.
  unfold after, update_victim_distributions, update_camp_resources, execute.
  simpl.
  rewrite (update_neutral _ camp_id _ _ _ bump_camp_zero).
  rewrite (update_neutral _ victim_id _ _ _ bump_victim_zero).
  destruct db; reflexivity.
Qed.

(** C3. From a camp with available_food = 1, available_medical_kits = 1 and
    current_occupancy = 0 (and room for one victim), registering a critical
    victim into it grants 1 food unit and 1 kit without warnings and leaves
    the camp at occupancy 1, food 0, kits 0 and the victim at
    food_distributed = 1, medical_kits_distributed = 1.  A manual distribution
    for the same victim right after it grants nothing, returns the no-food
    warning and the critical-shortage warning, and leaves the whole database,
    so the camp stock and the victim counters, unchanged. *)
Theorem register_then_distribute_scenario
    (f : VictimForm) (ag cid : Z) (db : DB) (c : Camp) :
  wf_db db ->
  camp_row db cid = Some c ->
  available_food c = 1 ->
  available_medical_kits c = 1 ->
  current_occupancy c = 0 ->
  0 < max_capacity c ->
  valid_form f ag cid ->
  vf_health_condition f = "critical" ->
  exists vid c1 v1,
    result (register_victim f) db = Registered vid 1 1 []
    /\ camp_row (after (register_victim f) db) cid = Some c1
    /\ current_occupancy c1 = 1
    /\ available_food c1 = 0
    /\ available_medical_kits c1 = 0
    /\ victim_row (after (register_victim f) db) vid = Some v1
    /\ health_condition v1 = "critical"
    /\ assigned_camp_id v1 = Some cid
    /\ food_distributed v1 = 1
    /\ medical_kits_distributed v1 = 1
    /\ do_distribute vid (after (register_victim f) db)
       = (Distributed 0 0 [NO_FOOD_WARNING; CRITICAL_SHORTAGE_WARNING],
          after (register_victim f) db).
Proof.
  intros Hwf Hc Hfood Hkits Hocc Hcap Hvalid Hcrit.
  assert (Hfull : is_full c = false).
  { unfold is_full. rewrite Hocc, Z.geb_leb. apply Z.leb_gt. assumption. }
  destruct (camp_row_In _ _ _ Hc) as [Hin Hid].
  assert (Hnz : cid <> 0).
  { destruct Hwf as [_ Hpos _ _ _]. rewrite Forall_forall in Hpos.
    specialize (Hpos _ Hin). lia. }
  set (nv := new_victim db f ag cid).
  set (c' := bump_camp 0 0 1 c).
  set (dbr := db_registered db f ag cid).
  assert (Hcid' : camp_id c' = cid) by exact Hid.
  assert (Hnvc : is_critical nv = true) by (apply is_critical_iff; exact Hcrit).
  assert (Hfg : food_given (result (distribute_resources nv c') dbr) = 1).
  { rewrite food_given_values. simpl. rewrite Hfood. reflexivity. }
  assert (Hkg : kits_given (result (distribute_resources nv c') dbr) = 1).
  { rewrite kits_given_values, Hnvc. simpl. rewrite Hkits. reflexivity. }
  assert (Hw : warnings (result (distribute_resources nv c') dbr) = []).
  { unfold result. rewrite distribute_resources_unfold. cbv zeta.
    unfold warnings. simpl snd. rewrite Hnvc. simpl.
    rewrite Hfood, Hkits. reflexivity. }
  assert (Hreg : register_victim f db
                 = (Registered (victim_id nv) 1 1 [],
                    after (distribute_resources nv c') dbr)).
  { rewrite (register_victim_accepted f ag cid db c Hvalid Hc Hfull).
    fold nv c' dbr. rewrite Hfg, Hkg, Hw. reflexivity. }
  set (db1 := after (distribute_resources nv c') dbr) in *.
  assert (Hafter : after (register_victim f) db = db1)
    by (unfold after at 1; rewrite Hreg; reflexivity).
  assert (Hc1 : camp_row db1 cid = Some (bump_camp (- 1) (- 1) 0 c')).
  { unfold db1. rewrite <- Hcid' at 1.
    rewrite camp_row_after_distribute, Hfg, Hkg, Hcid'.
    unfold dbr. rewrite (camp_row_db_registered db f ag cid c Hc). reflexivity. }
  assert (Hv1 : victim_row db1 (victim_id nv) = Some (bump_victim 1 1 nv)).
  { unfold db1. rewrite victim_row_after_distribute, Hfg, Hkg.
    unfold dbr, nv. rewrite victim_row_db_registered. reflexivity. }
  exists (victim_id nv), (bump_camp (- 1) (- 1) 0 c'), (bump_victim 1 1 nv).
  rewrite Hafter. unfold result. rewrite Hreg. simpl fst.
  split; [reflexivity|]. split; [exact Hc1|].
  split; [simpl; lia|]. split; [simpl; lia|]. split; [simpl; lia|].
  split; [exact Hv1|]. split; [exact Hcrit|]. split; [reflexivity|].
  split; [reflexivity|]. split; [reflexivity|].
  rewrite (do_distribute_found db1 (victim_id nv) cid _ _ Hv1 eq_refl Hnz Hc1).
  set (v1 := bump_victim 1 1 nv). set (c1 := bump_camp (- 1) (- 1) 0 c').
  assert (Hv1c : is_critical v1 = true) by exact Hnvc.
  assert (Hf0 : food_given (result (distribute_resources v1 c1) db1) = 0).
  { rewrite food_given_values. simpl. rewrite Hfood. reflexivity. }
  assert (Hk0 : kits_given (result (distribute_resources v1 c1) db1) = 0).
  { rewrite kits_given_values, Hv1c. simpl. rewrite Hkits. reflexivity. }
  rewrite (distribute_nothing_neutral v1 c1 db1 Hf0 Hk0), Hf0, Hk0.
  f_equal. f_equal.
  unfold result. rewrite distribute_resources_unfold. cbv zeta.
  unfold warnings. simpl snd. rewrite Hv1c. simpl.
  rewrite Hfood, Hkits. reflexivity.
Qed.

Lemma register_then_distribute_scenario_witness :
  wf_db scenario_db
  /\ camp_row scenario_db 1 = Some (mkCamp 1 "Riverside" 10 1 1 2 0)
  /\ valid_form scenario_victim_form 41 1
  /\ exists vid c1 v1,
       result (register_victim scenario_victim_form) scenario_db
       = Registered vid 1 1 []
       /\ camp_row (after (register_victim scenario_victim_form) scenario_db) 1
          = Some c1
       /\ current_occupancy c1 = 1
       /\ available_food c1 = 0
       /\ available_medical_kits c1 = 0
       /\ victim_row (after (register_victim scenario_victim_form) scenario_db) vid
          = Some v1
       /\ health_condition v1 = "critical"
       /\ assigned_camp_id v1 = Some 1
       /\ food_distributed v1 = 1
       /\ medical_kits_distributed v1 = 1
       /\ do_distribute vid (after (register_victim scenario_victim_form) scenario_db)
          = (Distributed 0 0 [NO_FOOD_WARNING; CRITICAL_SHORTAGE_WARNING],
             after (register_victim scenario_victim_form) scenario_db).
Proof.
  assert (Hwf : wf_db scenario_db) by (cbv; wf_by_computation).
  assert (Hvalid : valid_form scenario_victim_form 41 1).
  { unfold valid_form. simpl. repeat split; try lia; try discriminate. now right. }
  split; [exact Hwf|]. split; [reflexivity|]. split; [exact Hvalid|].
  apply (register_then_distribute_scenario scenario_victim_form 41 1 scenario_db
           (mkCamp 1 "Riverside" 10 1 1 2 0)); try reflexivity; assumption.
Defined.

(** C6. Registering a victim into a camp whose current_occupancy equals
    max_capacity is rejected before anything is written: the route does not
    end in a registration (for an otherwise valid form it reports the full
    camp), the database is left as it was, so no victim row is inserted, the
    camp's occupancy and stock are unchanged and no distribution took place. *)
Theorem register_victim_full_camp_rejected
    (f : VictimForm) (cid : Z) (db : DB) (c : Camp) :
  vf_camp_id f = Some cid ->
  camp_row db cid = Some c ->
  current_occupancy c = max_capacity c ->
  after (register_victim f) db = db
  /\ victims (after (register_victim f) db) = victims db
  /\ camp_row (after (register_victim f) db) cid = Some c
  /\ (forall vid fg kg ws,
        result (register_victim f) db <> Registered vid fg kg ws)
  /\ (forall ag, valid_form f ag cid ->
        result (register_victim f) db = RegCampFull c).
Proof.
  intros Hcid Hc Hocc.
  assert (Hfull : is_full c = true).
  { unfold is_full. rewrite Hocc, Z.geb_leb. apply Z.leb_refl. }
  assert (Hget : get_camp cid db = (Some c, db)).
  { unfold camp_row, result in Hc. unfold get_camp, query in *.
    simpl in Hc. now rewrite Hc. }
  assert (Hrun : after (register_victim f) db = db
                 /\ (forall vid fg kg ws,
                       result (register_victim f) db <> Registered vid fg kg ws)
                 /\ (forall ag, valid_form f ag cid ->
                       result (register_victim f) db = RegCampFull c)).
  { unfold after, result, register_victim. rewrite Hcid.
    destruct (vf_age f) as [ag|] eqn:Ea.
    2:{ simpl. repeat split; try discriminate.
        intros ag (_ & Habs & _). congruence. }
    destruct (String.eqb (vf_name f) "") eqn:En.
    { simpl. repeat split; try discriminate.
      intros ag' (Hname & _). apply String.eqb_eq in En. contradiction. }
    destruct ((ag <=? 0) || (ag >? 120)) eqn:Er.
    { simpl. repeat split; try discriminate.
      intros ag' (_ & Hag & Hrange & _).
      assert (ag' = ag) by congruence. subst ag'.
      apply orb_true_iff in Er. destruct Er as [Er|Er].
      - apply Z.leb_le in Er. lia.
      - rewrite Z.gtb_ltb in Er. apply Z.ltb_lt in Er. lia. }
    destruct (negb _) eqn:Eh.
    { simpl. repeat split; try discriminate.
      intros ag' (_ & _ & _ & Hhc & _).
      destruct Hhc as [Hhc|Hhc]; rewrite Hhc in Eh; discriminate. }
    unfold bind. rewrite Hget, Hfull. simpl.
    repeat split; discriminate. }
  destruct Hrun as (Hdb & Hno & Hfullres).
  rewrite Hdb. repeat split; assumption.
Qed.

Lemma register_victim_full_camp_rejected_witness :
  vf_camp_id scenario_victim_form = Some 1
  /\ camp_row crowded_db 1 = Some crowded
  /\ current_occupancy crowded = max_capacity crowded
  /\ after (register_victim scenario_victim_form) crowded_db = crowded_db
  /\ result (register_victim scenario_victim_form) crowded_db = RegCampFull crowded.
Proof.
  split; [reflexivity|]. split; [reflexivity|]. split; [reflexivity|].
  destruct (register_victim_full_camp_rejected scenario_victim_form 1 crowded_db
              crowded eq_refl eq_refl eq_refl) as (Hdb & _ & _ & _ & Hres).
  split; [exact Hdb|]. apply (Hres 41).
  unfold valid_form. simpl. repeat split; try lia; try discriminate. now right.
Defined.

(** ** The report *)

Section OrderBy.
Variable A : Type.
Variable key : A -> Z.

Lemma insert_by_perm x l : Permutation (insert_by key x l) (x :: l).
Proof.
  induction l as [|y l IH]; simpl; [reflexivity|].
  destruct (key x <? key y); [reflexivity|].
  rewrite IH. apply perm_swap.
Qed.

Lemma order_by_perm l : Permutation (order_by key l) l.
Proof.
  induction l as [|x l IH]; simpl; [reflexivity|].
  rewrite insert_by_perm. now constructor.
Qed.

Lemma insert_by_hd x l y :
  key y <= key x -> HdRel (fun a b => key a <= key b) y l ->
  HdRel (fun a b => key a <= key b) y (insert_by key x l).
Proof.
  intros Hyx Hhd. destruct l as [|z l]; simpl.
  - now constructor.
  - destruct (key x <? key z); constructor; [assumption|].
    now inversion Hhd.
Qed.

Lemma insert_by_sorted x l :
  Sorted (fun a b => key a <= key b) l ->
  Sorted (fun a b => key a <= key b) (insert_by key x l).
Proof.
  induction 1 as [|y l Hs IH Hhd]; simpl.
  - repeat constructor.
  - destruct (Z.ltb_spec (key x) (key y)).
    + constructor; [now constructor|]. constructor. lia.
    + constructor; [exact IH|]. now apply insert_by_hd.
Qed.

(** [ORDER BY key] returns the rows in ascending key order. *)
Lemma order_by_sorted l : Sorted (fun a b => key a <= key b) (order_by key l).
Proof.
  induction l; simpl; [constructor|]. now apply insert_by_sorted.
Qed.

Lemma py_max_from_spec best l :
  In (py_max_from key best l) (best :: l)
  /\ key best <= key (py_max_from key best l)
  /\ forall x, In x l -> key x <= key (py_max_from key best l).
Proof.
  revert best. induction l as [|y l IH]; intros best; simpl.
  - repeat split; [now left | lia | tauto].
  - destruct (IH (if key y >? key best then y else best)) as (Hin & Hge & Hall).
    destruct (Z.gtb_spec (key y) (key best)).
    + repeat split.
      * destruct Hin as [Hin|Hin]; [right; left; exact Hin | right; right; exact Hin].
      * lia.
      * intros x [<-|Hx]; [exact Hge | now apply Hall].
    + repeat split.
      * destruct Hin as [Hin|Hin]; [left; exact Hin | right; right; exact Hin].
      * exact Hge.
      * intros x [<-|Hx]; [lia | now apply Hall].
Qed.

Lemma py_max_by_spec l :
  match py_max_by key l with
  | None => l = []
  | Some b => In b l /\ forall x, In x l -> key x <= key b
  end.
Proof.
  destruct l as [|a l]; simpl; [reflexivity|].
  destruct (py_max_from_spec a l) as (Hin & Hge & Hall).
  split; [exact Hin|]. intros x [<-|Hx]; [exact Hge | now apply Hall].
Qed.
End OrderBy.

Lemma py_sum_from (l : list Z) (a : Z) : fold_left Z.add l a = a + sumZ l.
Proof.
  revert a. induction l as [|x l IH]; intros a; simpl; [lia|].
  rewrite IH. lia.
Qed.

Lemma py_sum_sumZ (l : list Z) : py_sum l = sumZ l.
Proof. unfold py_sum. now rewrite py_sum_from. Qed.

Lemma sumZ_perm (l l' : list Z) : Permutation l l' -> sumZ l = sumZ l'.
Proof. induction 1; simpl; lia. Qed.

Lemma sumZ_ones (A : Type) (l : list A) :
  sumZ (map (fun _ => 1) l) = Z.of_nat (List.length l).
Proof.
  induction l as [|x l IH]; [reflexivity|].
  change (sumZ (map (fun _ : A => 1) (x :: l)))
    with (1 + sumZ (map (fun _ : A => 1) l)).
  change (List.length (x :: l)) with (S (List.length l)).
  rewrite Nat2Z.inj_succ, IH. lia.
Qed.

Lemma filter_perm (A : Type) (p : A -> bool) (l l' : list A) :
  Permutation l l' -> Permutation (filter p l) (filter p l').
Proof.
  induction 1 as [|x l l' _ IH|x y l|l1 l2 l3 _ IH1 _ IH2]; simpl.
  - constructor.
  - destruct (p x); [now constructor | exact IH].
  - destruct (p x), (p y); try reflexivity. apply perm_swap.
  - now transitivity (filter p l2).
Qed.

(** C8. The report is recomputed from the records the database holds when it
    is queried, and stores nothing: total camps is the number of camp rows,
    total victims the number of victim rows, total food and total kits the
    sums of food_distributed and of medical_kits_distributed over all victim
    rows, the critical count the number of victim rows whose health_condition
    is critical, and the busiest camp is absent exactly when there is no camp
    and otherwise a camp row whose current_occupancy no camp row exceeds. *)
Theorem report_recomputes_aggregates (db : DB) :
  after report db = db
  /\ total_camps (result report db) = Z.of_nat (List.length (camps db))
  /\ total_victims (result report db) = Z.of_nat (List.length (victims db))
  /\ total_food (result report db) = sumZ (map food_distributed (victims db))
  /\ total_medical_kits (result report db)
     = sumZ (map medical_kits_distributed (victims db))
  /\ critical_victims (result report db)
     = Z.of_nat (List.length
                   (filter (fun v => String.eqb (health_condition v) "critical")
                           (victims db)))
  /\ (busiest_camp (result report db) = None <-> camps db = [])
  /\ (forall b, busiest_camp (result report db) = Some b ->
        In b (camps db)
        /\ forall c, In c (camps db) -> current_occupancy c <= current_occupancy b).
Proof.
  unfold result, after, report, bind, get_all_camps, get_all_victims, query, ret.
  simpl.
  pose proof (order_by_perm _ camp_id (camps db)) as Pc.
  pose proof (order_by_perm _ victim_id (victims db)) as Pv.
  split; [reflexivity|].
  split; [f_equal; now apply Permutation_length|].
  split; [f_equal; now apply Permutation_length|].
  split; [rewrite py_sum_sumZ; now apply sumZ_perm, Permutation_map|].
  split; [rewrite py_sum_sumZ; now apply sumZ_perm, Permutation_map|].
  split.
  { rewrite py_sum_sumZ, sumZ_ones. f_equal.
    apply Permutation_length. now apply filter_perm. }
  pose proof (py_max_by_spec _ current_occupancy (order_by camp_id (camps db)))
    as Hmax.
  destruct (py_max_by current_occupancy (order_by camp_id (camps db))) as [b|].
  - destruct Hmax as [Hin Hall]. split.
    + split; [discriminate|]. intros Hnil. rewrite Hnil in Hin. contradiction.
    + intros b' Hb'. injection Hb' as <-. split.
      * now apply (Permutation_in _ Pc).
      * intros c Hc. apply Hall. now apply (Permutation_in _ (Permutation_sym Pc)).
  - split.
    + split; [intros _|reflexivity].
      rewrite Hmax in Pc. now apply Permutation_nil.
    + discriminate.
Qed.

(** ** Derived camp attributes *)

(** The code returns 33.3 for one third, not 33.33333333333333. *)
Lemma occupancy_percentage_third :
  occupancy_percentage third_full
  = Returns (PyFloat (S754_finite false 4686558362232422 (-47))).
Proof. vm_compute. reflexivity. Qed.

Lemma percentage_as_stated_third :
  percentage_as_stated third_full
  = Returns (PyFloat (S754_finite false 4691249611844266 (-47))).
Proof. vm_compute. reflexivity. Qed.

(** C7, as stated, fails at occupancy 1 of capacity 3: the value returned is
    the float 33.3, which is neither the float [1 / 3 * 100] nor a number
    whose exact value is 100/3. *)
Lemma occupancy_percentage_not_plain_ratio :
  max_capacity third_full <> 0
  /\ occupancy_percentage third_full
     = Returns (PyFloat (S754_finite false 4686558362232422 (-47)))
  /\ occupancy_percentage third_full <> percentage_as_stated third_full
  /\ ~ is_exactly (PyFloat (S754_finite false 4686558362232422 (-47)))
         (current_occupancy third_full * 100) (max_capacity third_full).
Proof.
  split; [simpl; discriminate|].
  split; [exact occupancy_percentage_third|].
  split.
  - rewrite occupancy_percentage_third, percentage_as_stated_third. discriminate.
  - vm_compute. discriminate.
Qed.

(** Ties go to the even tenth, a full camp shows 100.0, an empty one 0.0,
    and a camp without capacity the integer 0. *)
Example occupancy_percentage_tie :
  occupancy_percentage (mkCamp 1 "Depot" 800 0 0 0 1)
  = Returns (PyFloat (S754_finite false 7205759403792794 (-56))).
Proof. vm_compute. reflexivity. Qed.

Example occupancy_percentage_full :
  occupancy_percentage (mkCamp 1 "Depot" 7 0 0 0 7)
  = Returns (PyFloat (S754_finite false 7036874417766400 (-46))).
Proof. vm_compute. reflexivity. Qed.

Example occupancy_percentage_empty :
  occupancy_percentage (mkCamp 1 "Depot" 7 0 0 0 0)
  = Returns (PyFloat (S754_zero false)).
Proof. vm_compute. reflexivity. Qed.

Example occupancy_percentage_no_capacity :
  occupancy_percentage (mkCamp 1 "Depot" 0 0 0 0 4) = Returns (PyInt 0).
Proof. reflexivity. Qed.

Lemma round_half_even_div_nearest (p q : Z) :
  0 < q ->
  Z.abs (2 * (p - round_half_even_div p q * q)) <= q
  /\ (Z.abs (2 * (p - round_half_even_div p q * q)) = q ->
      Z.even (round_half_even_div p q) = true).
Proof.
  intros Hq. unfold round_half_even_div.
  pose proof (Z.div_mod p q ltac:(lia)) as Hdm.
  pose proof (Z.mod_pos_bound p q Hq) as Hm.
  destruct (Z.compare_spec (2 * (p mod q)) q) as [He|Hl|Hg].
  - destruct (Z.even (p / q)) eqn:Ev.
    + split; [lia|]. intros _. exact Ev.
    + split; [lia|]. intros _.
      rewrite Z.even_add, Ev. reflexivity.
  - split; [lia|]. intros Habs. lia.
  - split; [lia|]. intros Habs. lia.
Qed.

Lemma py_truediv_no_zero_division (a b : Z) :
  b <> 0 -> py_truediv a b <> Raises ZeroDivisionError.
Proof.
  intros Hb. unfold py_truediv. apply Z.eqb_neq in Hb. rewrite Hb.
  destruct a; [discriminate| |];
    unfold finite_or_overflow; destruct (SFdiv _ _ _ _); discriminate.
Qed.

Lemma py_round1_no_zero_division (x : spec_float) :
  py_round1 x <> Raises ZeroDivisionError.
Proof.
  unfold py_round1. destruct x as [s|s| |s m e]; try discriminate.
  destruct (if 0 <=? e then _ else _); try discriminate;
    unfold finite_or_overflow; destruct (SFdiv _ _ _ _); discriminate.
Qed.

(** C7, amended.  The derived occupancy_percentage never raises a
    division-by-zero error: it is the integer 0 when max_capacity is 0, and
    otherwise the float current_occupancy / max_capacity * 100 rounded to one
    decimal place by [round(_, 1)].  The derived is_full is
    current_occupancy >= max_capacity. *)
Theorem occupancy_percentage_rounded (c : Camp) :
  occupancy_percentage c <> Raises ZeroDivisionError
  /\ (max_capacity c = 0 -> occupancy_percentage c = Returns (PyInt 0))
  /\ (max_capacity c <> 0 ->
        (forall x,
           percentage_as_stated c = Returns (PyFloat x) ->
           occupancy_percentage c
           = match py_round1 x with
             | Returns r => Returns (PyFloat r)
             | Raises e => Raises e
             end)
        /\ (forall e,
              percentage_as_stated c = Raises e ->
              occupancy_percentage c = Raises e))
  /\ (is_full c = true <-> current_occupancy c >= max_capacity c)
  /\ (is_full c = false <-> current_occupancy c < max_capacity c).
Proof.
  split; [|split; [|split; [|split]]].
  - unfold occupancy_percentage.
    destruct (Z.eqb_spec (max_capacity c) 0) as [|Hne]; [discriminate|].
    pose proof (py_truediv_no_zero_division (current_occupancy c) _ Hne) as Hd.
    destruct (py_truediv _ _) as [q|e]; [|congruence].
    pose proof (py_round1_no_zero_division (py_float_mul_int q 100)) as Hr.
    destruct (py_round1 _) as [r|e]; [discriminate|congruence].
  - unfold occupancy_percentage. intros ->. reflexivity.
  - intros Hne. unfold occupancy_percentage, percentage_as_stated.
    apply Z.eqb_neq in Hne. rewrite Hne.
    destruct (py_truediv _ _) as [q|e0]; split.
    + intros x Hx. injection Hx as <-. reflexivity.
    + discriminate.
    + discriminate.
    + intros e He. exact He.
  - unfold is_full. rewrite Z.geb_leb, Z.leb_le. lia.
  - unfold is_full. rewrite Z.geb_leb, Z.leb_gt. lia.
Qed.

(** ** The routes as a whole *)

Lemma get_camp_run (cid : Z) (db : DB) : get_camp cid db = (camp_row db cid, db).
Proof. reflexivity. Qed.

Lemma get_victim_run (vid : Z) (db : DB) :
  get_victim vid db = (victim_row db vid, db).
Proof. reflexivity. Qed.

(** The registration route either writes nothing or runs the accepted path;
    it never ends in an uncaught exception. *)
Lemma register_victim_cases (f : VictimForm) (db : DB) :
  (after (register_victim f) db = db
   /\ (forall vid fg kg ws,
         result (register_victim f) db <> Registered vid fg kg ws)
   /\ result (register_victim f) db <> RegUncaught)
  \/ exists ag cid c,
       valid_form f ag cid
       /\ camp_row db cid = Some c
       /\ is_full c = false
       /\ register_victim f db
          = (Registered
               (victim_id (new_victim db f ag cid))
               (food_given (result (distribute_resources (new_victim db f ag cid)
                                      (bump_camp 0 0 1 c))
                              (db_registered db f ag cid)))
               (kits_given (result (distribute_resources (new_victim db f ag cid)
                                      (bump_camp 0 0 1 c))
                              (db_registered db f ag cid)))
               (warnings (result (distribute_resources (new_victim db f ag cid)
                                    (bump_camp 0 0 1 c))
                            (db_registered db f ag cid))),
             after (distribute_resources (new_victim db f ag cid)
                      (bump_camp 0 0 1 c))
               (db_registered db f ag cid)).
Proof.
  destruct (vf_age f) as [ag|] eqn:Ea;
    [|left; unfold after, result, register_victim; rewrite Ea;
      repeat split; discriminate].
  destruct (vf_camp_id f) as [cid|] eqn:Ec;
    [|left; unfold after, result, register_victim; rewrite Ea, Ec;
      repeat split; discriminate].
  destruct (String.eqb (vf_name f) "") eqn:En;
    [left; unfold after, result, register_victim; rewrite Ea, Ec, En;
     repeat split; discriminate|].
  destruct ((ag <=? 0) || (ag >? 120)) eqn:Er;
    [left; unfold after, result, register_victim; rewrite Ea, Ec, En, Er;
     repeat split; discriminate|].
  destruct (String.eqb (vf_health_condition f) "normal"
            || String.eqb (vf_health_condition f) "critical") eqn:Eh;
    [|left; unfold after, result, register_victim; rewrite Ea, Ec, En, Er, Eh;
      repeat split; discriminate].
  destruct (camp_row db cid) as [c|] eqn:Erow.
  2:{ left. unfold after, result, register_victim.
      rewrite Ea, Ec, En, Er, Eh. unfold bind. cbv beta iota delta [negb].
      rewrite get_camp_run, Erow. repeat split; discriminate. }
  destruct (is_full c) eqn:Ef.
  { left. unfold after, result, register_victim.
    rewrite Ea, Ec, En, Er, Eh. unfold bind. cbv beta iota delta [negb].
    rewrite get_camp_run, Erow, Ef. repeat split; discriminate. }
  right. exists ag, cid, c.
  assert (Hvalid : valid_form f ag cid).
  { unfold valid_form. apply String.eqb_neq in En.
    apply orb_false_elim in Er. destruct Er as [E1 E2].
    apply Z.leb_gt in E1. rewrite Z.gtb_ltb in E2. apply Z.ltb_ge in E2.
    apply orb_true_iff in Eh.
    repeat split; try assumption; try lia.
    destruct Eh as [Eh|Eh]; apply String.eqb_eq in Eh; auto. }
  split; [exact Hvalid|]. split; [exact Erow|]. split; [exact Ef|].
  now apply register_victim_accepted.
Qed.

Lemma db_registered_steps (db : DB) (f : VictimForm) (ag cid : Z) (c : Camp) :
  camp_row db cid = Some c ->
  db_registered db f ag cid
  = after (create_victim (vf_name f) ag (vf_health_condition f) cid)
      (after (update_camp_resources cid 0 0 1) db).
Proof.
  intros Hc. unfold after at 1. unfold create_victim.
  replace (existsb _ _) with true.
  - reflexivity.
  - symmetry. apply camp_row_exists. exists (bump_camp 0 0 1 c).
    rewrite camp_row_update_same, Hc. reflexivity.
Qed.

(** Every route keeps the invariant, so it holds in every database reached
    from [init_db]. *)
Lemma wf_register_victim (f : VictimForm) (db : DB) :
  wf_db db -> wf_db (after (register_victim f) db).
Proof.
  intros Hwf.
  destruct (register_victim_cases f db)
    as [(-> & _) | (ag & cid & c & _ & Hc & _ & Heq)]; [assumption|].
  unfold after at 1. rewrite Heq. simpl snd.
  apply wf_distribute_resources.
  rewrite (db_registered_steps db f ag cid c Hc).
  now apply wf_create_victim, wf_update_camp_resources.
Qed.

Lemma do_distribute_cases (vid : Z) (db : DB) :
  (after (do_distribute vid) db = db
   /\ forall fg kg ws, result (do_distribute vid) db <> Distributed fg kg ws)
  \/ exists v c,
       victim_row db (victim_id v) = Some v
       /\ victim_id v = vid
       /\ camp_row db (camp_id c) = Some c
       /\ assigned_camp_id v = Some (camp_id c)
       /\ do_distribute vid db
          = (Distributed (food_given (result (distribute_resources v c) db))
                         (kits_given (result (distribute_resources v c) db))
                         (warnings (result (distribute_resources v c) db)),
             after (distribute_resources v c) db).
Proof.
  destruct (victim_row db vid) as [v|] eqn:Ev.
  2:{ left. unfold after, result, do_distribute, bind.
      rewrite get_victim_run, Ev. split; [reflexivity|discriminate]. }
  destruct (victim_row_In _ _ _ Ev) as [_ Hvid].
  assert (Hskip : forall oc, assigned_camp v db = (oc, db) -> oc = None ->
            after (do_distribute vid) db = db
            /\ forall fg kg ws, result (do_distribute vid) db <> Distributed fg kg ws).
  { intros oc Ha ->. unfold after, result, do_distribute, bind.
    rewrite get_victim_run, Ev, Ha. split; [reflexivity|discriminate]. }
  destruct (assigned_camp_id v) as [cid|] eqn:Ea.
  2:{ left. apply (Hskip None); [|reflexivity].
      unfold assigned_camp. rewrite Ea. reflexivity. }
  destruct (Z.eqb_spec cid 0) as [Hz|Hz].
  { left. apply (Hskip None); [|reflexivity].
    unfold assigned_camp. rewrite Ea, Hz. reflexivity. }
  destruct (camp_row db cid) as [c|] eqn:Ec.
  2:{ left. apply (Hskip None); [|reflexivity].
      unfold assigned_camp. rewrite Ea.
      apply Z.eqb_neq in Hz. rewrite Hz.
      now rewrite get_camp_run, Ec. }
  right. exists v, c.
  destruct (camp_row_In _ _ _ Ec) as [_ Hcid].
  rewrite Hvid, Hcid. repeat split; try assumption.
  now apply (do_distribute_found db vid cid).
Qed.

Lemma wf_do_distribute (vid : Z) (db : DB) :
  wf_db db -> wf_db (after (do_distribute vid) db).
Proof.
  intros Hwf.
  destruct (do_distribute_cases vid db)
    as [(-> & _) | (v & c & _ & _ & _ & _ & Heq)]; [assumption|].
  unfold after at 1. rewrite Heq. simpl snd.
  now apply wf_distribute_resources.
Qed.

Lemma wf_add_camp (f : CampForm) (db : DB) :
  wf_db db -> wf_db (after (add_camp f) db).
Proof.
  intros Hwf. unfold after, add_camp.
  destruct (cf_max_capacity f) as [cap|]; [|exact Hwf].
  destruct (cf_available_food f) as [food|]; [|exact Hwf].
  destruct (cf_available_medical_kits f) as [kits|]; [|exact Hwf].
  destruct (cf_volunteers f) as [vols|]; [|exact Hwf].
  destruct (String.eqb _ _); [exact Hwf|].
  destruct (cap <=? 0); [exact Hwf|].
  unfold bind.
  pose proof (wf_create_camp db (cf_location f) cap food kits vols Hwf) as H.
  unfold after in H.
  destruct (create_camp (cf_location f) cap food kits vols db) as [cid db'].
  exact H.
Qed.

(** Both callers of the distribution engine hand it rows they have just read,
    so stock is conserved by every manual distribution. *)
Lemma do_distribute_conserves_stock (vid : Z) (db : DB) :
  wf_db db ->
  food_in_stock (after (do_distribute vid) db)
  + food_handed_out (after (do_distribute vid) db)
  = food_in_stock db + food_handed_out db
  /\ kits_in_stock (after (do_distribute vid) db)
     + kits_handed_out (after (do_distribute vid) db)
     = kits_in_stock db + kits_handed_out db.
Proof.
  intros Hwf.
  destruct (do_distribute_cases vid db)
    as [(-> & _) | (v & c & Hv & _ & Hc & _ & Heq)]; [split; reflexivity|].
  unfold after at 1 2 3 4. rewrite Heq. simpl snd.
  exact (distribute_resources_totals v c db c v Hwf Hc Hv).
Qed.

Lemma sumZ_snoc (l : list Z) (x : Z) : sumZ (l ++ [x]) = sumZ l + x.
Proof. induction l as [|y l IH]; simpl; [lia|]. rewrite IH. lia. Qed.

Lemma totals_db_registered (db : DB) (f : VictimForm) (ag cid : Z) :
  food_in_stock (db_registered db f ag cid) = food_in_stock db
  /\ kits_in_stock (db_registered db f ag cid) = kits_in_stock db
  /\ food_handed_out (db_registered db f ag cid) = food_handed_out db
  /\ kits_handed_out (db_registered db f ag cid) = kits_handed_out db.
Proof.
  unfold food_in_stock, kits_in_stock, food_handed_out, kits_handed_out,
    db_registered, after, update_camp_resources, execute.
  cbn [camps victims snd].
  rewrite !map_map, !map_app. cbn [map]. rewrite !sumZ_snoc.
  cbn [food_distributed medical_kits_distributed new_victim].
  repeat split; try lia; f_equal; apply map_ext; intros c;
    destruct (camp_id c =? cid); simpl; lia.
Qed.

(** ... and by every registration. *)
Lemma register_victim_conserves_stock (f : VictimForm) (db : DB) :
  wf_db db ->
  food_in_stock (after (register_victim f) db)
  + food_handed_out (after (register_victim f) db)
  = food_in_stock db + food_handed_out db
  /\ kits_in_stock (after (register_victim f) db)
     + kits_handed_out (after (register_victim f) db)
     = kits_in_stock db + kits_handed_out db.
Proof.
  intros Hwf.
  destruct (register_victim_cases f db)
    as [(-> & _) | (ag & cid & c & _ & Hc & _ & Heq)]; [split; reflexivity|].
  unfold after at 1 2 3 4. rewrite Heq. simpl snd.
  destruct (totals_db_registered db f ag cid) as (E1 & E2 & E3 & E4).
  rewrite <- E1, <- E2, <- E3, <- E4.
  destruct (camp_row_In _ _ _ Hc) as [_ Hid].
  apply (distribute_resources_totals _ _ _ (bump_camp 0 0 1 c)
           (new_victim db f ag cid)).
  - rewrite (db_registered_steps db f ag cid c Hc).
    now apply wf_create_victim, wf_update_camp_resources.
  - change (camp_id (bump_camp 0 0 1 c)) with (camp_id c). rewrite Hid.
    now apply camp_row_db_registered.
  - apply victim_row_db_registered.
Qed.

(** The invariant holds in every database the application can reach. *)
Lemma wf_handle (r : Request) (db : DB) : wf_db db -> wf_db (handle r db).
Proof.
  destruct r; simpl.
  - apply wf_add_camp.
  - apply wf_register_victim.
  - apply wf_do_distribute.
  - auto.
Qed.

Lemma wf_serve (rs : list Request) (db : DB) : wf_db db -> wf_db (serve rs db).
Proof.
  unfold serve. revert db. induction rs as [|r rs IH]; intros db Hwf; simpl.
  - exact Hwf.
  - apply IH. now apply wf_handle.
Qed.

Lemma wf_reachable (rs : list Request) : wf_db (serve rs init_db).
Proof. apply wf_serve, wf_init_db. Qed.

(** * Further properties of the repositories *)

(** ** The victim delta-update *)


(** ** Inserting and reading back *)

Lemma find_key_snoc_old (A : Type) (key : A -> Z) (k : Z) (l : list A) (a b : A) :
  find (fun x => key x =? k) l = Some b ->
  find (fun x => key x =? k) (l ++ [a]) = Some b.
Proof.
  induction l as [|c l IH]; simpl; [discriminate|].
  destruct (key c =? k); auto.
Qed.

(** The insert on [Z]: a fresh positive id, the row reads back, the rest is
    kept. *)
Lemma create_camp_reads_back
    (db : DB) (loc : string) (cap food kits vols : Z) :
  0 < result (create_camp loc cap food kits vols) db
  /\ Forall (fun c => camp_id c < result (create_camp loc cap food kits vols) db)
            (camps db)
  /\ camp_row (after (create_camp loc cap food kits vols) db)
              (result (create_camp loc cap food kits vols) db)
     = Some (mkCamp (result (create_camp loc cap food kits vols) db)
                    loc cap food kits vols 0)
  /\ (forall k c, camp_row db k = Some c ->
        camp_row (after (create_camp loc cap food kits vols) db) k = Some c)
  /\ victims (after (create_camp loc cap food kits vols) db) = victims db.
Proof.
  unfold result, after, create_camp. simpl.
  split; [apply next_rowid_pos|].
  split.
  { apply Forall_forall. intros c Hin. apply next_rowid_above.
    now apply in_map. }
  split.
  { unfold camp_row, result, get_camp, query. simpl.
    apply (find_key_snoc_fresh Camp camp_id (camps db)
             (mkCamp (next_rowid (camps_seq db) (map camp_id (camps db)))
                     loc cap food kits vols 0)).
    simpl. apply next_rowid_fresh. }
  split; [|reflexivity].
  intros k c Hc. unfold camp_row, result, get_camp, query in *. simpl in *.
  now apply find_key_snoc_old.
Qed.

(** The insert on [Z]: refused without the camp, otherwise a fresh positive
    id, the row reads back, the rest is kept. *)
Lemma create_victim_reads_back
    (db : DB) (nm : string) (ag : Z) (hc : string) (cid : Z) :
  (camp_row db cid = None -> create_victim nm ag hc cid db = (None, db))
  /\ (forall c, camp_row db cid = Some c ->
        exists vid,
          result (create_victim nm ag hc cid) db = Some vid
          /\ 0 < vid
          /\ Forall (fun v => victim_id v < vid) (victims db)
          /\ victim_row (after (create_victim nm ag hc cid) db) vid
             = Some (mkVictim vid nm ag hc (Some cid) 0 0)
          /\ (forall k v, victim_row db k = Some v ->
                victim_row (after (create_victim nm ag hc cid) db) k = Some v)
          /\ camps (after (create_victim nm ag hc cid) db) = camps db).
Proof.
  split.
  - intros Habs. unfold create_victim.
    destruct (existsb _ (camps db)) eqn:E; [|reflexivity].
    apply camp_row_exists in E. destruct E as [c Hc]. congruence.
  - intros c Hc.
    assert (E : existsb (fun c0 => camp_id c0 =? cid) (camps db) = true)
      by (apply camp_row_exists; eauto).
    unfold result, after, create_victim. rewrite E. simpl.
    eexists. split; [reflexivity|].
    split; [apply next_rowid_pos|].
    split.
    { apply Forall_forall. intros v Hin. apply next_rowid_above.
      now apply in_map. }
    split.
    { unfold victim_row, result, get_victim, query. simpl.
      apply (find_key_snoc_fresh Victim victim_id (victims db)
               (mkVictim (next_rowid (victims_seq db) (map victim_id (victims db)))
                         nm ag hc (Some cid) 0 0)).
      simpl. apply next_rowid_fresh. }
    split; [|reflexivity].
    intros k v Hv. unfold victim_row, result, get_victim, query in *. simpl in *.
    now apply find_key_snoc_old.
Qed.

(** ** The listing queries *)

Lemma In_order_by (A : Type) (key : A -> Z) (l : list A) (a : A) :
  In a (order_by key l) <-> In a l.
Proof.
  split; apply Permutation_in;
    [|apply Permutation_sym]; apply order_by_perm.
Qed.

(** X4. [get_available_camps] lists exactly the camp rows that are not full
    in the sense of [Camp.is_full], in ascending camp_id order, and changes
    nothing: a camp is offered for registration if and only if the fullness
    check of [register_victim] lets it through. *)
Theorem get_available_camps_not_full (db : DB) :
  (forall c, In c (result get_available_camps db)
             <-> In c (camps db) /\ is_full c = false)
  /\ Sorted (fun a b => camp_id a <= camp_id b) (result get_available_camps db)
  /\ after get_available_camps db = db.
Proof.
  unfold result, after, get_available_camps, query. simpl.
  split; [|split; [apply order_by_sorted | reflexivity]].
  intros c. rewrite In_order_by, filter_In. unfold is_full.
  rewrite Z.geb_leb.
  destruct (Z.ltb_spec (current_occupancy c) (max_capacity c)),
           (Z.leb_spec (max_capacity c) (current_occupancy c));
    try lia; intuition congruence.
Qed.

(** * Consistency of every reachable database *)

Lemma occupants_filter (db : DB) (cid : Z) :
  occupants db cid = order_by victim_id (filter (assigned_to cid) (victims db)).
Proof. reflexivity. Qed.

Lemma occupants_count (db : DB) (cid : Z) :
  List.length (occupants db cid)
  = List.length (filter (assigned_to cid) (victims db)).
Proof. rewrite occupants_filter. apply Permutation_length, order_by_perm. Qed.

Lemma camp_consistent_victims (db db' : DB) (c : Camp) :
  (forall cid, List.length (filter (assigned_to cid) (victims db'))
               = List.length (filter (assigned_to cid) (victims db))) ->
  camp_consistent db c -> camp_consistent db' c.
Proof.
  intros Hcount (Hcap & Hocc & Hn). unfold camp_consistent.
  rewrite occupants_count, Hcount, <- occupants_count. auto.
Qed.

Lemma filter_update_count (A : Type) (p : A -> bool) (f : A -> A) (l : list A) :
  (forall a, p (f a) = p a) ->
  List.length (filter p (map f l)) = List.length (filter p l).
Proof.
  intros Hp. induction l as [|a l IH]; simpl; [reflexivity|].
  rewrite Hp. destruct (p a); simpl; now rewrite IH.
Qed.

Lemma consistent_init_db : consistent init_db.
Proof. constructor; [apply wf_init_db | constructor | constructor]. Qed.

Lemma consistent_update_victim (db : DB) (vid fd kd : Z) :
  0 <= fd -> 0 <= kd ->
  consistent db -> consistent (after (update_victim_distributions vid fd kd) db).
Proof.
  intros Hfd Hkd [Hwf Hcamps Hvictims]. constructor.
  - now apply wf_update_victim_distributions.
  - change (camps (after (update_victim_distributions vid fd kd) db))
      with (camps db).
    eapply Forall_impl; [|exact Hcamps]. intros c.
    apply camp_consistent_victims. intros cid.
    unfold after, update_victim_distributions, execute. simpl.
    apply filter_update_count. intros v.
    destruct (victim_id v =? vid); reflexivity.
  - unfold after, update_victim_distributions, execute. simpl.
    apply Forall_forall. intros v' Hin. apply in_map_iff in Hin.
    destruct Hin as [v [<- Hin]].
    rewrite Forall_forall in Hvictims. specialize (Hvictims v Hin).
    destruct (victim_id v =? vid); [|assumption].
    destruct Hvictims as (H1 & H2 & H3 & H4 & H5 & H6).
    unfold victim_valid. simpl. repeat split; try assumption; lia.
Qed.

Lemma consistent_update_camp_stock (db : DB) (cid fd kd : Z) :
  consistent db -> consistent (after (update_camp_resources cid fd kd 0) db).
Proof.
  intros [Hwf Hcamps Hvictims]. constructor.
  - now apply wf_update_camp_resources.
  - unfold after, update_camp_resources, execute. simpl.
    apply Forall_forall. intros c' Hin. apply in_map_iff in Hin.
    destruct Hin as [c [<- Hin]].
    rewrite Forall_forall in Hcamps. specialize (Hcamps c Hin).
    destruct (camp_id c =? cid); [|exact Hcamps].
    destruct Hcamps as (H1 & H2 & H3).
    unfold camp_consistent in *. simpl.
    rewrite Z.add_0_r. rewrite occupants_count in *. simpl. auto.
  - exact Hvictims.
Qed.

Lemma consistent_distribute_resources (victim : Victim) (camp : Camp) (db : DB) :
  consistent db -> consistent (after (distribute_resources victim camp) db).
Proof.
  intros Hc. rewrite db_after_distribute.
  destruct (grants_nonneg victim camp db) as [[Hf _] [Hk _]].
  apply consistent_update_victim; try assumption.
  now apply consistent_update_camp_stock.
Qed.

(** No victim is assigned to an id that names no camp. *)
Lemma no_occupants_of_fresh_id (db : DB) (cid : Z) :
  wf_db db -> ~ In cid (map camp_id (camps db)) ->
  filter (assigned_to cid) (victims db) = [].
Proof.
  intros [_ _ _ _ Hfk] Hfresh.
  induction (victims db) as [|v l IH]; [reflexivity|].
  inversion Hfk as [|? ? Hv Hl]; subst. simpl.
  rewrite (IH Hl). unfold assigned_to.
  destruct (assigned_camp_id v) as [k|]; [|reflexivity].
  destruct (Z.eqb_spec k cid) as [->|]; [contradiction|reflexivity].
Qed.

Lemma consistent_create_camp (db : DB) (loc : string) (cap food kits vols : Z) :
  0 < cap ->
  consistent db -> consistent (after (create_camp loc cap food kits vols) db).
Proof.
  intros Hcap [Hwf Hcamps Hvictims]. constructor.
  - now apply wf_create_camp.
  - unfold after, create_camp. simpl. apply Forall_app. split.
    + eapply Forall_impl; [|exact Hcamps]. intros c.
      now apply camp_consistent_victims.
    + repeat constructor; simpl; try lia.
      rewrite occupants_count. simpl.
      rewrite (no_occupants_of_fresh_id db _ Hwf (next_rowid_fresh _ _)).
      reflexivity.
  - exact Hvictims.
Qed.

Lemma consistent_add_camp (f : CampForm) (db : DB) :
  consistent db -> consistent (after (add_camp f) db).
Proof.
  intros Hc. unfold after, add_camp.
  destruct (cf_max_capacity f) as [cap|]; [|exact Hc].
  destruct (cf_available_food f) as [food|]; [|exact Hc].
  destruct (cf_available_medical_kits f) as [kits|]; [|exact Hc].
  destruct (cf_volunteers f) as [vols|]; [|exact Hc].
  destruct (String.eqb _ _); [exact Hc|].
  destruct (Z.leb_spec cap 0) as [|Hcap]; [exact Hc|].
  unfold bind.
  pose proof (consistent_create_camp db (cf_location f) cap food kits vols
                Hcap Hc) as H.
  unfold after in H.
  destruct (create_camp (cf_location f) cap food kits vols db) as [cid db'].
  exact H.
Qed.

Lemma camp_row_unique (db : DB) (c : Camp) :
  NoDup (map camp_id (camps db)) -> In c (camps db) ->
  camp_row db (camp_id c) = Some c.
Proof.
  unfold camp_row, result, get_camp, query. simpl.
  induction (camps db) as [|b l IH]; simpl; [tauto|].
  intros Hnd [->|Hin].
  - now rewrite Z.eqb_refl.
  - inversion Hnd as [|? ? Hni Hnd']; subst.
    destruct (Z.eqb_spec (camp_id b) (camp_id c)) as [He|_]; [|now apply IH].
    exfalso. apply Hni. rewrite He. now apply in_map.
Qed.

Lemma consistent_db_registered
    (db : DB) (f : VictimForm) (ag cid : Z) (c : Camp) :
  valid_form f ag cid ->
  camp_row db cid = Some c ->
  is_full c = false ->
  consistent db -> consistent (db_registered db f ag cid).
Proof.
  intros (Hname & _ & Hage & Hhc & _) Hc Hfull [Hwf Hcamps Hvictims].
  constructor.
  - rewrite (db_registered_steps db f ag cid c Hc).
    now apply wf_create_victim, wf_update_camp_resources.
  - unfold db_registered, after, update_camp_resources, execute. simpl.
    apply Forall_forall. intros c' Hin. apply in_map_iff in Hin.
    destruct Hin as [c0 [<- Hin]].
    rewrite Forall_forall in Hcamps.
    destruct (Hcamps c0 Hin) as (H1 & H2 & H3).
    rewrite occupants_count in H3.
    destruct (Z.eqb_spec (camp_id c0) cid) as [He|Hne].
    + assert (c0 = c).
      { pose proof (camp_row_unique db c0 (wf_camp_ids db Hwf) Hin) as Hu.
        rewrite He in Hu. congruence. }
      subst c0. unfold is_full in Hfull. rewrite Z.geb_leb in Hfull.
      apply Z.leb_gt in Hfull.
      unfold camp_consistent. rewrite occupants_count. simpl.
      rewrite filter_app, length_app. simpl.
      unfold assigned_to at 2. simpl. rewrite He, Z.eqb_refl. simpl.
      rewrite He in H3. rewrite Nat2Z.inj_add. simpl Z.of_nat.
      repeat split; lia.
    + unfold camp_consistent. rewrite occupants_count. simpl.
      rewrite filter_app, length_app. simpl.
      unfold assigned_to at 2. simpl.
      destruct (Z.eqb_spec cid (camp_id c0)) as [He|_]; [congruence|].
      simpl. rewrite Nat.add_0_r. auto.
  - unfold db_registered. simpl. apply Forall_app. split; [exact Hvictims|].
    constructor; [|constructor].
    unfold victim_valid, new_victim. simpl.
    split; [assumption|]. split; [assumption|]. split; [assumption|].
    split; [eauto|]. split; lia.
Qed.

Lemma consistent_register_victim (f : VictimForm) (db : DB) :
  consistent db -> consistent (after (register_victim f) db).
Proof.
  intros Hc.
  destruct (register_victim_cases f db)
    as [(-> & _) | (ag & cid & c & Hvalid & Hrow & Hfull & Heq)]; [assumption|].
  unfold after at 1. rewrite Heq. simpl snd.
  apply consistent_distribute_resources.
  now apply (consistent_db_registered db f ag cid c).
Qed.

Lemma consistent_do_distribute (vid : Z) (db : DB) :
  consistent db -> consistent (after (do_distribute vid) db).
Proof.
  intros Hc.
  destruct (do_distribute_cases vid db)
    as [(-> & _) | (v & c & _ & _ & _ & _ & Heq)]; [assumption|].
  unfold after at 1. rewrite Heq. simpl snd.
  now apply consistent_distribute_resources.
Qed.

Lemma consistent_handle (r : Request) (db : DB) :
  consistent db -> consistent (handle r db).
Proof.
  destruct r; simpl.
  - apply consistent_add_camp.
  - apply consistent_register_victim.
  - apply consistent_do_distribute.
  - auto.
Qed.

Lemma consistent_serve (rs : list Request) (db : DB) :
  consistent db -> consistent (serve rs db).
Proof.
  unfold serve. revert db. induction rs as [|r rs IH]; intros db Hc; simpl.
  - exact Hc.
  - apply IH. now apply consistent_handle.
Qed.

Lemma get_victims_for_camp_membership (db : DB) (cid : Z) (v : Victim) :
  In v (result (get_victims_for_camp cid) db) ->
  assigned_camp_id v = Some cid.
Proof.
  fold (occupants db cid).
  rewrite occupants_filter, In_order_by, filter_In. unfold assigned_to.
  intros [_ H]. destruct (assigned_camp_id v) as [k|]; [|discriminate].
  apply Z.eqb_eq in H. now subst.
Qed.

(** The listing of a camp's victims on [Z]. *)
Lemma occupants_assigned_sorted (db : DB) (cid : Z) :
  (forall v, In v (result (get_victims_for_camp cid) db)
             <-> In v (victims db) /\ assigned_camp_id v = Some cid)
  /\ Sorted (fun a b => victim_id a <= victim_id b)
            (result (get_victims_for_camp cid) db)
  /\ after (get_victims_for_camp cid) db = db.
Proof.
  split; [|split; [apply order_by_sorted | reflexivity]].
  intros v. fold (occupants db cid).
  rewrite occupants_filter, In_order_by, filter_In. unfold assigned_to.
  destruct (assigned_camp_id v) as [k|].
  - destruct (Z.eqb_spec k cid) as [->|Hne]; intuition congruence.
  - intuition congruence.
Qed.

Lemma camp_row_of_id (db : DB) (cid : Z) :
  In cid (map camp_id (camps db)) ->
  exists c, camp_row db cid = Some c /\ camp_id c = cid /\ In c (camps db).
Proof.
  intros Hin. destruct (camp_row db cid) as [c|] eqn:E.
  - destruct (camp_row_In _ _ _ E). eauto.
  - exfalso. apply in_map_iff in Hin. destruct Hin as [c [Hid Hc]].
    unfold camp_row, result, get_camp, query in E. simpl in E.
    apply (find_none _ _ E) in Hc. simpl in Hc.
    apply Z.eqb_neq in Hc. contradiction.
Qed.

(** X6. In every database reached from the empty one by camp registrations,
    victim registrations, manual distributions and reports, camp ids are
    pairwise distinct and positive, victim ids are pairwise distinct and
    positive, and every victim's assigned_camp_id names a camp row. *)
Theorem reachable_keys_sound (rs : list Request) :
  NoDup (map camp_id (camps (serve rs init_db)))
  /\ Forall (fun c => 0 < camp_id c) (camps (serve rs init_db))
  /\ NoDup (map victim_id (victims (serve rs init_db)))
  /\ Forall (fun v => 0 < victim_id v) (victims (serve rs init_db))
  /\ Forall (fun v => forall cid, assigned_camp_id v = Some cid ->
                        exists c, camp_row (serve rs init_db) cid = Some c)
            (victims (serve rs init_db)).
Proof.
  destruct (wf_serve rs init_db wf_init_db) as [H1 H2 H3 H4 H5].
  repeat split; try assumption.
  eapply Forall_impl; [|exact H5]. intros v Hv cid Hcid.
  simpl in Hv. rewrite Hcid in Hv.
  destruct (camp_row_of_id _ _ Hv) as (c & Hc & _). eauto.
Qed.

(** X7. In every reachable database each camp has a positive max_capacity
    and an occupancy between 0 and max_capacity: registration never fills a
    camp beyond its capacity. *)
Theorem reachable_camps_within_capacity (rs : list Request) :
  Forall (fun c => 0 < max_capacity c
                   /\ 0 <= current_occupancy c <= max_capacity c)
         (camps (serve rs init_db)).
Proof.
  destruct (consistent_serve rs init_db consistent_init_db) as [_ Hcamps _].
  eapply Forall_impl; [|exact Hcamps].
  intros c (H1 & H2 & _). auto.
Qed.

(** X8. In every reachable database the camp detail page is coherent for
    every camp id that fits in 64 bits: for an unknown id it reports the camp
    as missing, and otherwise the camp's current_occupancy is the number of
    victims it lists, all of them assigned to that camp; viewing changes
    nothing. *)
Theorem view_camp_occupancy (rs : list Request) (cid : Z) :
  Sqlite.bindable cid = true ->
  after (view_camp cid) (serve rs init_db) = serve rs init_db
  /\ match result (view_camp cid) (serve rs init_db) with
     | Some (c, vs) =>
         camp_row (serve rs init_db) cid = Some c
         /\ current_occupancy c = Z.of_nat (List.length vs)
         /\ Forall (fun v => assigned_camp_id v = Some cid) vs
     | None => camp_row (serve rs init_db) cid = None
     end.
Proof.
  intros _.
  pose proof (consistent_serve rs init_db consistent_init_db) as Hcons.
  set (db := serve rs init_db) in *.
  unfold after, result, view_camp, bind. rewrite get_camp_run.
  destruct (camp_row db cid) as [c|] eqn:Ec; simpl; [|auto].
  split; [reflexivity|]. split; [reflexivity|].
  destruct (camp_row_In _ _ _ Ec) as [Hin Hid].
  destruct Hcons as [_ Hcamps _]. rewrite Forall_forall in Hcamps.
  destruct (Hcamps c Hin) as (_ & _ & Hocc). rewrite Hid in Hocc.
  split; [exact Hocc|].
  apply Forall_forall. intros v Hv.
  apply (get_victims_for_camp_membership db cid v). exact Hv.
Qed.

(** X9. In every reachable database each stored victim passed the
    registration checks: the name is not empty, the age is between 1 and 120,
    the health condition is normal or critical, a camp is assigned, and both
    distribution counters are non-negative. *)
Theorem reachable_victims_valid (rs : list Request) :
  Forall (fun v =>
            name v <> ""
            /\ 1 <= age v <= 120
            /\ (health_condition v = "normal" \/ health_condition v = "critical")
            /\ assigned_camp_id v <> None
            /\ 0 <= food_distributed v
            /\ 0 <= medical_kits_distributed v)
         (victims (serve rs init_db)).
Proof.
  destruct (consistent_serve rs init_db consistent_init_db) as [_ _ Hvictims].
  eapply Forall_impl; [|exact Hvictims].
  intros v (H1 & H2 & H3 & [cid H4] & H5 & H6).
  repeat split; try assumption; try lia. congruence.
Qed.

(** In a consistent database the camp of a stored victim is found. *)
Lemma assigned_camp_found (db : DB) (vid : Z) (v : Victim) :
  consistent db ->
  victim_row db vid = Some v ->
  exists c, assigned_camp v db = (Some c, db)
            /\ assigned_camp_id v = Some (camp_id c)
            /\ camp_row db (camp_id c) = Some c.
Proof.
  intros [Hwf _ Hvictims] Hv.
  destruct (victim_row_In _ _ _ Hv) as [Hin _].
  rewrite Forall_forall in Hvictims.
  destruct (Hvictims v Hin) as (_ & _ & _ & [cid Hcid] & _).
  destruct Hwf as [_ Hpos _ _ Hfk]. rewrite Forall_forall in Hfk, Hpos.
  specialize (Hfk v Hin). simpl in Hfk. rewrite Hcid in Hfk.
  destruct (camp_row_of_id _ _ Hfk) as (c & Hc & Hid & Hcin).
  specialize (Hpos c Hcin). exists c.
  unfold assigned_camp. rewrite Hcid.
  destruct (Z.eqb_spec cid 0) as [Hz|_]; [lia|].
  rewrite get_camp_run, Hc, Hid. auto.
Qed.

(** X10. In every reachable database a stored victim always has its camp.
    For every victim id that fits in 64 bits, the manual distribution either
    reports an unknown victim id or distributes, never "not assigned to any
    camp"; and the search either reports an unknown id or returns the victim
    together with the camp its assigned_camp_id names, changing nothing. *)
Theorem reachable_victim_has_camp (rs : list Request) (vid : Z) :
  Sqlite.bindable vid = true ->
  match result (do_distribute vid) (serve rs init_db) with
  | DistVictimNotFound => victim_row (serve rs init_db) vid = None
  | DistNotAssigned => False
  | Distributed _ _ _ => victim_row (serve rs init_db) vid <> None
  end
  /\ match result (search_victim (Some vid)) (serve rs init_db) with
     | SearchInvalidId => False
     | SearchNotFound => victim_row (serve rs init_db) vid = None
     | SearchFound v camp =>
         victim_row (serve rs init_db) vid = Some v
         /\ exists c, camp = Some c /\ assigned_camp_id v = Some (camp_id c)
     end
  /\ after (search_victim (Some vid)) (serve rs init_db) = serve rs init_db.
Proof.
  intros _.
  pose proof (consistent_serve rs init_db consistent_init_db) as Hcons.
  set (db := serve rs init_db) in *.
  unfold result, after, do_distribute, search_victim, bind.
  rewrite !get_victim_run.
  destruct (victim_row db vid) as [v|] eqn:Ev; simpl; [|auto].
  destruct (assigned_camp_found db vid v Hcons Ev) as (c & Ha & Hid & _).
  rewrite Ha. simpl.
  split.
  - destruct (distribute_resources v c db) as [[[fg kg] ws] db']. simpl.
    discriminate.
  - split; [|reflexivity]. split; [reflexivity|]. eauto.
Qed.

(** * Further properties of the routes *)

Lemma create_camp_fresh_row (db : DB) (loc : string) (cap food kits vols : Z) :
  camp_row (after (create_camp loc cap food kits vols) db)
           (result (create_camp loc cap food kits vols) db)
  = Some (mkCamp (result (create_camp loc cap food kits vols) db)
                 loc cap food kits vols 0).
Proof.
  unfold result, after, create_camp, camp_row, get_camp, query. simpl.
  apply (find_key_snoc_fresh Camp camp_id (camps db)
           (mkCamp (next_rowid (camps_seq db) (map camp_id (camps db)))
                   loc cap food kits vols 0)).
  simpl. apply next_rowid_fresh.
Qed.

(** X11. For a camp form whose numbers fit in 64 bits, on a camps table that
    has not used the largest rowid, [add_camp] writes nothing unless it creates
    the camp; it creates the camp exactly when the numbers parse, the location
    is not empty and max_capacity is positive, whatever the stock and
    volunteer numbers are (negative ones included); the created camp reads
    back with the submitted values and current_occupancy 0.  The empty
    location is reported before a bad capacity. *)
Theorem add_camp_validation (f : CampForm) (db : DB) :
  camp_form_bindable f ->
  camps_have_room db ->
  ((forall cid, result (add_camp f) db <> CampCreated cid) ->
     after (add_camp f) db = db)
  /\ (forall cid,
        result (add_camp f) db = CampCreated cid <->
        exists cap food kits vols,
          f = mkCampForm (cf_location f) (Some cap) (Some food) (Some kits)
                         (Some vols)
          /\ cf_location f <> ""
          /\ 0 < cap
          /\ cid = result (create_camp (cf_location f) cap food kits vols) db)
  /\ (forall cid,
        result (add_camp f) db = CampCreated cid ->
        exists cap food kits vols,
          camp_row (after (add_camp f) db) cid
          = Some (mkCamp cid (cf_location f) cap food kits vols 0)
          /\ cf_max_capacity f = Some cap
          /\ cf_available_food f = Some food
          /\ cf_available_medical_kits f = Some kits
          /\ cf_volunteers f = Some vols)
  /\ (result (add_camp f) db = CampBadCapacity -> cf_location f <> "").
Proof.
  intros _ _.
  assert (Hreject : forall r,
            add_camp f db = (r, db) ->
            (forall cid, r <> CampCreated cid) ->
            (forall cap food kits vols,
               f = mkCampForm (cf_location f) (Some cap) (Some food) (Some kits)
                              (Some vols) ->
               cf_location f <> "" -> 0 < cap -> False) ->
            (r = CampBadCapacity -> cf_location f <> "") ->
            ((forall cid, result (add_camp f) db <> CampCreated cid) ->
               after (add_camp f) db = db)
            /\ (forall cid,
                  result (add_camp f) db = CampCreated cid <->
                  exists cap food kits vols,
                    f = mkCampForm (cf_location f) (Some cap) (Some food)
                                   (Some kits) (Some vols)
                    /\ cf_location f <> ""
                    /\ 0 < cap
                    /\ cid = result (create_camp (cf_location f) cap food kits
                                       vols) db)
            /\ (forall cid,
                  result (add_camp f) db = CampCreated cid ->
                  exists cap food kits vols,
                    camp_row (after (add_camp f) db) cid
                    = Some (mkCamp cid (cf_location f) cap food kits vols 0)
                    /\ cf_max_capacity f = Some cap
                    /\ cf_available_food f = Some food
                    /\ cf_available_medical_kits f = Some kits
                    /\ cf_volunteers f = Some vols)
            /\ (result (add_camp f) db = CampBadCapacity -> cf_location f <> "")).
  { intros r Hrun Hno Hform Hbad. unfold result, after. rewrite Hrun. simpl.
    split; [reflexivity|]. split; [|split].
    - intros cid. split; [intros H; now apply Hno in H|].
      intros (cap & food & kits & vols & Hf & Hloc & Hcap & _).
      exfalso. exact (Hform cap food kits vols Hf Hloc Hcap).
    - intros cid H. now apply Hno in H.
    - exact Hbad. }
  destruct f as [loc [cap|] [food|] [kits|] [vols|]];
    try (apply (Hreject CampInvalidValues);
         [reflexivity | discriminate | intros ? ? ? ? Hf; discriminate Hf
          | discriminate]).
  clear Hreject.
  unfold result, after, add_camp. simpl.
  destruct (String.eqb_spec loc "") as [Hloc|Hloc]; simpl.
  { split; [reflexivity|]. split; [|split; discriminate].
    intros cid. split; [discriminate|].
    intros (cap' & food' & kits' & vols' & _ & Hne & _). contradiction. }
  destruct (Z.leb_spec cap 0) as [Hcap|Hcap]; simpl.
  { split; [reflexivity|]. split; [|split; [discriminate | intros _; exact Hloc]].
    intros cid. split; [discriminate|].
    intros (cap' & food' & kits' & vols' & Heq & _ & Hpos & _).
    injection Heq as <- _ _ _. lia. }
  pose proof (create_camp_fresh_row db loc cap food kits vols) as Hrow.
  unfold result, after, create_camp in Hrow. simpl in Hrow.
  unfold bind, ret. simpl.
  split; [intros Hno; exfalso; eapply Hno; reflexivity|].
  split.
  { intros cid. split.
    - intros Heq. injection Heq as <-.
      exists cap, food, kits, vols. auto.
    - intros (cap' & food' & kits' & vols' & _ & _ & _ & ->). reflexivity. }
  split; [|discriminate].
  intros cid Heq. injection Heq as <-.
  exists cap, food, kits, vols. auto.
Qed.

(** X12. For a form whose camp id fits in 64 bits, on a victims table that
    has not used the largest rowid, [register_victim] registers exactly when
    the form passes the validation (numbers parse, name not empty, age 1 to
    120, health condition normal or critical), the camp exists and the camp is
    not full; in every other case it writes nothing, and it does not fail with
    an uncaught exception: once the checks pass, the insert and both re-reads
    succeed. *)
Theorem register_victim_decision (f : VictimForm) (db : DB) :
  (forall cid, vf_camp_id f = Some cid -> Sqlite.bindable cid = true) ->
  victims_have_room db ->
  ((exists vid fg kg ws, result (register_victim f) db = Registered vid fg kg ws)
   <-> exists ag cid c,
         valid_form f ag cid /\ camp_row db cid = Some c /\ is_full c = false)
  /\ ((forall vid fg kg ws,
         result (register_victim f) db <> Registered vid fg kg ws) ->
      after (register_victim f) db = db)
  /\ result (register_victim f) db <> RegUncaught.
Proof.
  intros _ _.
  destruct (register_victim_cases f db)
    as [(Hdb & Hno & Hun) | (ag & cid & c & Hvalid & Hrow & Hfull & Heq)].
  - split; [|split; [intros _; exact Hdb | exact Hun]].
    split.
    + intros (vid & fg & kg & ws & H). now apply Hno in H.
    + intros (ag & cid & c & Hvalid & Hrow & Hfull).
      pose proof (register_victim_accepted f ag cid db c Hvalid Hrow Hfull) as H.
      exfalso. eapply Hno. unfold result. rewrite H. reflexivity.
  - unfold result, after. rewrite Heq. simpl.
    split; [|split; [|discriminate]].
    + split; [intros _; eauto 8 | intros _; eauto 8].
    + intros Hno. exfalso. eapply Hno. reflexivity.
Qed.

(** ** What a distribution leaves alone *)

Lemma camp_row_distribute_other (victim : Victim) (camp : Camp) (db : DB) (k : Z) :
  k <> camp_id camp ->
  camp_row (after (distribute_resources victim camp) db) k = camp_row db k.
Proof.
  intros Hne. rewrite db_after_distribute, camp_row_update_victim.
  now apply camp_row_update_other.
Qed.

Lemma victim_row_update_other vid fd kd db k :
  k <> vid ->
  victim_row (after (update_victim_distributions vid fd kd) db) k
  = victim_row db k.
Proof.
  intros Hne.
  unfold victim_row, result, after, update_victim_distributions, get_victim,
    query, execute.
  simpl. apply find_update_other; [intros; apply bump_victim_id | assumption].
Qed.

Lemma victim_row_distribute_other (victim : Victim) (camp : Camp) (db : DB) (k : Z) :
  k <> victim_id victim ->
  victim_row (after (distribute_resources victim camp) db) k = victim_row db k.
Proof.
  intros Hne. rewrite db_after_distribute, victim_row_update_other by assumption.
  apply victim_row_update_camp.
Qed.

(** X13. A distribution touches two rows only.  Every camp other than the
    one passed in and every victim other than the one passed in reads the same
    afterwards; no row is added or removed; and in every camp row the id,
    location, max_capacity, volunteers and current_occupancy, in every victim
    row the id, name, age, health condition and assigned camp are kept. *)
Theorem distribute_resources_frame (victim : Victim) (camp : Camp) (db : DB) :
  (forall k, k <> camp_id camp ->
     camp_row (after (distribute_resources victim camp) db) k = camp_row db k)
  /\ (forall k, k <> victim_id victim ->
        victim_row (after (distribute_resources victim camp) db) k
        = victim_row db k)
  /\ Forall2 (fun c c' =>
                camp_id c' = camp_id c
                /\ location c' = location c
                /\ max_capacity c' = max_capacity c
                /\ volunteers c' = volunteers c
                /\ current_occupancy c' = current_occupancy c)
             (camps db) (camps (after (distribute_resources victim camp) db))
  /\ Forall2 (fun v v' =>
                victim_id v' = victim_id v
                /\ name v' = name v
                /\ age v' = age v
                /\ health_condition v' = health_condition v
                /\ assigned_camp_id v' = assigned_camp_id v)
             (victims db) (victims (after (distribute_resources victim camp) db))
  /\ camps_seq (after (distribute_resources victim camp) db) = camps_seq db
  /\ victims_seq (after (distribute_resources victim camp) db) = victims_seq db.
Proof.
  split; [intros k; apply camp_row_distribute_other|].
  split; [intros k; apply victim_row_distribute_other|].
  rewrite db_after_distribute.
  unfold after, update_victim_distributions, update_camp_resources, execute.
  simpl. repeat split.
  - induction (camps db) as [|c l IH]; simpl; constructor; [|exact IH].
    destruct (camp_id c =? camp_id camp); simpl; repeat split; auto.
    apply Z.add_0_r.
  - induction (victims db) as [|v l IH]; simpl; constructor; [|exact IH].
    destruct (victim_id v =? victim_id victim); simpl; repeat split; auto.
Qed.

(** X14. A successful registration adds exactly one victim row and one
    occupant.  The new victim gets an id above all existing ones, is assigned
    to the chosen camp and starts with the grants of the automatic
    distribution as its counters; the camp's occupancy grows by one and its
    stock shrinks by the grants; every other camp and every earlier victim
    reads the same afterwards. *)
Theorem register_victim_effects
    (f : VictimForm) (ag cid : Z) (db : DB) (c : Camp) :
  valid_form f ag cid ->
  camp_row db cid = Some c ->
  is_full c = false ->
  exists vid fg kg ws,
    result (register_victim f) db = Registered vid fg kg ws
    /\ Forall (fun v => victim_id v < vid) (victims db)
    /\ victim_row (after (register_victim f) db) vid
       = Some (mkVictim vid (vf_name f) ag (vf_health_condition f) (Some cid)
                        fg kg)
    /\ camp_row (after (register_victim f) db) cid
       = Some (mkCamp cid (location c) (max_capacity c)
                      (available_food c - fg) (available_medical_kits c - kg)
                      (volunteers c) (current_occupancy c + 1))
    /\ List.length (victims (after (register_victim f) db))
       = S (List.length (victims db))
    /\ List.length (camps (after (register_victim f) db))
       = List.length (camps db)
    /\ (forall k, k <> cid ->
          camp_row (after (register_victim f) db) k = camp_row db k)
    /\ (forall k v, victim_row db k = Some v ->
          victim_row (after (register_victim f) db) k = Some v).
Proof.
  intros Hvalid Hc Hfull.
  pose proof (register_victim_accepted f ag cid db c Hvalid Hc Hfull) as Heq.
  destruct (camp_row_In _ _ _ Hc) as [_ Hid].
  set (nv := new_victim db f ag cid) in *.
  set (c' := bump_camp 0 0 1 c) in *.
  set (dbr := db_registered db f ag cid) in *.
  set (r := result (distribute_resources nv c') dbr) in *.
  exists (victim_id nv), (food_given r), (kits_given r), (warnings r).
  unfold result at 1, after. rewrite Heq. simpl fst. simpl snd.
  fold (after (distribute_resources nv c') dbr).
  assert (Hfresh : Forall (fun v => victim_id v < victim_id nv) (victims db)).
  { apply Forall_forall. intros v Hin. apply next_rowid_above.
    now apply in_map. }
  split; [reflexivity|]. split; [exact Hfresh|].
  split.
  { rewrite victim_row_after_distribute. fold r.
    unfold dbr, nv. rewrite victim_row_db_registered. reflexivity. }
  split.
  { replace cid with (camp_id c') at 1 by exact Hid.
    rewrite camp_row_after_distribute. fold r.
    change (camp_id c') with (camp_id c). rewrite Hid.
    unfold dbr. rewrite (camp_row_db_registered db f ag cid c Hc).
    simpl. unfold bump_camp. simpl. rewrite Hid. f_equal. f_equal; lia. }
  split.
  { rewrite db_after_distribute.
    unfold after, update_victim_distributions, update_camp_resources, execute.
    simpl. rewrite length_map, length_app. simpl. lia. }
  split.
  { rewrite db_after_distribute.
    unfold after, update_victim_distributions, update_camp_resources, execute.
    simpl. now rewrite !length_map. }
  split.
  { intros k Hk. rewrite camp_row_distribute_other
      by (change (camp_id c') with (camp_id c); congruence).
    change (camp_row dbr k)
      with (camp_row (after (update_camp_resources cid 0 0 1) db) k).
    now apply camp_row_update_other. }
  intros k v Hv.
  assert (Hk : k <> victim_id nv).
  { destruct (victim_row_In _ _ _ Hv) as [Hin Hkid].
    rewrite Forall_forall in Hfresh. specialize (Hfresh v Hin). lia. }
  rewrite victim_row_distribute_other by exact Hk.
  unfold victim_row, result, get_victim, query in *. simpl in *.
  now apply find_key_snoc_old.
Qed.

Lemma register_victim_effects_witness :
  valid_form scenario_victim_form 41 1
  /\ camp_row scenario_db 1 = Some (mkCamp 1 "Riverside" 10 1 1 2 0)
  /\ exists vid fg kg ws,
       result (register_victim scenario_victim_form) scenario_db
       = Registered vid fg kg ws
       /\ victim_row (after (register_victim scenario_victim_form) scenario_db) vid
          = Some (mkVictim vid "Meera" 41 "critical" (Some 1) fg kg)
       /\ List.length (victims (after (register_victim scenario_victim_form)
                                  scenario_db)) = 1%nat.
Proof.
  assert (Hvalid : valid_form scenario_victim_form 41 1).
  { unfold valid_form. simpl. repeat split; try lia; try discriminate. now right. }
  split; [exact Hvalid|]. split; [reflexivity|].
  destruct (register_victim_effects scenario_victim_form 41 1 scenario_db
              (mkCamp 1 "Riverside" 10 1 1 2 0) Hvalid eq_refl eq_refl)
    as (vid & fg & kg & ws & Hres & _ & Hrow & _ & Hlen & _).
  exists vid, fg, kg, ws. repeat split; assumption.
Defined.

(** ** Stock floors *)

(** X15. When the camp snapshot passed to a distribution is the current row,
    the distribution never drives a stock below zero, and a victim that is not
    critical never takes the camp's last medical kit: food and kits that were
    non-negative stay non-negative, and kits that were at least 1 stay at
    least 1 after serving a non-critical victim. *)
Theorem distribution_keeps_stock_floor (victim : Victim) (camp : Camp) (db : DB) :
  camp_row db (camp_id camp) = Some camp ->
  exists c1,
    camp_row (after (distribute_resources victim camp) db) (camp_id camp) = Some c1
    /\ (0 <= available_food camp -> 0 <= available_food c1)
    /\ (0 <= available_medical_kits camp -> 0 <= available_medical_kits c1)
    /\ (health_condition victim <> "critical" ->
        1 <= available_medical_kits camp -> 1 <= available_medical_kits c1).
Proof.
  intros Hc. rewrite camp_row_after_distribute, Hc. simpl.
  eexists. split; [reflexivity|]. simpl.
  rewrite food_given_values, kits_given_values.
  split; [|split].
  - destruct (Z.gtb_spec (available_food camp) 0); lia.
  - destruct (is_critical victim);
      [destruct (Z.gtb_spec (available_medical_kits camp) 0)
      |rewrite Z.geb_leb; destruct (Z.leb_spec 2 (available_medical_kits camp))];
      lia.
  - intros Hn. apply is_critical_false_iff in Hn. rewrite Hn.
    rewrite Z.geb_leb. destruct (Z.leb_spec 2 (available_medical_kits camp)); lia.
Qed.

Lemma distribution_keeps_stock_floor_witness :
  camp_row hillside_db (camp_id hillside) = Some hillside
  /\ exists c1,
       camp_row (after (distribute_resources asha hillside) hillside_db) 1 = Some c1
       /\ 0 <= available_food c1
       /\ 1 <= available_medical_kits c1.
Proof.
  split; [reflexivity|].
  destruct (distribution_keeps_stock_floor asha hillside hillside_db eq_refl)
    as (c1 & Hrow & Hf & _ & Hk).
  exists c1. split; [exact Hrow|]. split.
  - apply Hf. simpl. lia.
  - apply Hk; [discriminate | simpl; lia].
Defined.

(** ** Repeated manual distributions *)

(** The grant rule as a floor: one unit leaves while the stock is above it. *)
Lemma drain_step (floor x : Z) (n : nat) :
  Z.max (Z.min floor x) (x - Z.of_nat (S n))
  = Z.max (Z.min floor x) (x - Z.of_nat n)
    - (if Z.max (Z.min floor x) (x - Z.of_nat n) >? floor then 1 else 0).
Proof.
  rewrite Nat2Z.inj_succ.
  destruct (Z.gtb_spec (Z.max (Z.min floor x) (x - Z.of_nat n)) floor); lia.
Qed.

Lemma do_distribute_step (db : DB) (vid cid : Z) (v : Victim) (c : Camp) :
  wf_db db ->
  victim_row db vid = Some v ->
  assigned_camp_id v = Some cid ->
  camp_row db cid = Some c ->
  victim_row (after (do_distribute vid) db) vid
  = Some (bump_victim
            (if available_food c >? 0 then 1 else 0)
            (if is_critical v
             then (if available_medical_kits c >? 0 then 1 else 0)
             else (if available_medical_kits c >=? 2 then 1 else 0)) v)
  /\ camp_row (after (do_distribute vid) db) cid
     = Some (bump_camp
               (- (if available_food c >? 0 then 1 else 0))
               (- (if is_critical v
                   then (if available_medical_kits c >? 0 then 1 else 0)
                   else (if available_medical_kits c >=? 2 then 1 else 0))) 0 c).
Proof.
  intros Hwf Hv Ha Hc.
  destruct (camp_row_In _ _ _ Hc) as [Hin Hcid].
  destruct (victim_row_In _ _ _ Hv) as [_ Hvid].
  assert (Hnz : cid <> 0).
  { destruct Hwf as [_ Hpos _ _ _]. rewrite Forall_forall in Hpos.
    specialize (Hpos _ Hin). lia. }
  subst vid cid.
  unfold after at 1 2.
  rewrite (do_distribute_found db _ _ v c Hv Ha Hnz Hc). simpl snd.
  fold (after (distribute_resources v c) db).
  rewrite victim_row_after_distribute, camp_row_after_distribute.
  rewrite food_given_values, kits_given_values, Hv, Hc.
  split; reflexivity.
Qed.

(** X16. Manual distributions hand out one unit per call until the floor is
    reached.  After [n] calls in a row for a victim of a camp holding [F]
    food and [K] kits, the camp holds max(min(0,F), F - n) food, that is
    max(0, F - n) for a non-negative stock, and max(min(b,K), K - n) kits,
    where the floor [b] is 0 for a critical victim and 1 otherwise; the
    victim's counters have grown by exactly what the camp lost. *)
Theorem distribute_times_drains
    (db : DB) (vid cid : Z) (v : Victim) (c : Camp) (n : nat) :
  wf_db db ->
  victim_row db vid = Some v ->
  assigned_camp_id v = Some cid ->
  camp_row db cid = Some c ->
  exists v' c',
    victim_row (distribute_times vid n db) vid = Some v'
    /\ camp_row (distribute_times vid n db) cid = Some c'
    /\ available_food c'
       = Z.max (Z.min 0 (available_food c)) (available_food c - Z.of_nat n)
    /\ available_medical_kits c'
       = Z.max (Z.min (if is_critical v then 0 else 1) (available_medical_kits c))
               (available_medical_kits c - Z.of_nat n)
    /\ food_distributed v'
       = food_distributed v + (available_food c - available_food c')
    /\ medical_kits_distributed v'
       = medical_kits_distributed v
         + (available_medical_kits c - available_medical_kits c')
    /\ current_occupancy c' = current_occupancy c.
Proof.
  intros Hwf Hv Ha Hc.
  assert (H : exists v' c',
            wf_db (distribute_times vid n db)
            /\ assigned_camp_id v' = Some cid
            /\ is_critical v' = is_critical v
            /\ victim_row (distribute_times vid n db) vid = Some v'
            /\ camp_row (distribute_times vid n db) cid = Some c'
            /\ available_food c'
               = Z.max (Z.min 0 (available_food c))
                       (available_food c - Z.of_nat n)
            /\ available_medical_kits c'
               = Z.max (Z.min (if is_critical v then 0 else 1)
                              (available_medical_kits c))
                       (available_medical_kits c - Z.of_nat n)
            /\ food_distributed v'
               = food_distributed v + (available_food c - available_food c')
            /\ medical_kits_distributed v'
               = medical_kits_distributed v
                 + (available_medical_kits c - available_medical_kits c')
            /\ current_occupancy c' = current_occupancy c).
  { induction n as [|n IH].
    - exists v, c. simpl.
      split; [exact Hwf|].
      repeat split; try assumption; try reflexivity; try lia;
        destruct (is_critical v); lia.
    - destruct IH as (v1 & c1 & Hwf1 & Ha1 & Hcr1 & Hv1 & Hc1
                      & Hf & Hk & Hvf & Hvk & Ho).
      change (distribute_times vid (S n) db)
        with (after (do_distribute vid) (distribute_times vid n db)).
      destruct (do_distribute_step _ vid cid v1 c1 Hwf1 Hv1 Ha1 Hc1)
        as [Hv2 Hc2].
      eexists. eexists.
      split; [now apply wf_do_distribute|].
      split; [|split; [|split; [exact Hv2|split; [exact Hc2|]]]].
      + exact Ha1.
      + exact Hcr1.
      + cbn [available_food available_medical_kits food_distributed
             medical_kits_distributed current_occupancy bump_camp bump_victim].
        rewrite Hcr1.
        rewrite (drain_step 0 (available_food c) n), <- Hf.
        assert (Hkits :
          available_medical_kits c1
          + - (if is_critical v
               then if available_medical_kits c1 >? 0 then 1 else 0
               else if available_medical_kits c1 >=? 2 then 1 else 0)
          = Z.max (Z.min (if is_critical v then 0 else 1)
                         (available_medical_kits c))
                  (available_medical_kits c - Z.of_nat (S n))).
        { rewrite (drain_step _ (available_medical_kits c) n), <- Hk.
          destruct (is_critical v).
          - destruct (available_medical_kits c1 >? 0); lia.
          - rewrite Z.geb_leb.
            destruct (Z.leb_spec 2 (available_medical_kits c1)),
                     (Z.gtb_spec (available_medical_kits c1) 1); lia. }
        rewrite <- Hkits.
        repeat split; try lia;
          destruct (available_food c1 >? 0); lia. }
  destruct H as (v' & c' & _ & _ & _ & H). exists v', c'. exact H.
Qed.

Lemma distribute_times_drains_witness :
  wf_db hillside_db
  /\ victim_row hillside_db 1 = Some asha
  /\ camp_row hillside_db 1 = Some hillside
  /\ exists v' c',
       victim_row (distribute_times 1 5 hillside_db) 1 = Some v'
       /\ camp_row (distribute_times 1 5 hillside_db) 1 = Some c'
       /\ available_food c' = 0
       /\ available_medical_kits c' = 1
       /\ food_distributed v' = 1 + 3
       /\ medical_kits_distributed v' = 0 + 1.
Proof.
  split; [exact wf_hillside_db|]. split; [reflexivity|]. split; [reflexivity|].
  destruct (distribute_times_drains hillside_db 1 1 asha hillside 5
              wf_hillside_db eq_refl eq_refl eq_refl)
    as (v' & c' & Hv & Hc & Hf & Hk & Hvf & Hvk & _).
  exists v', c'.
  split; [exact Hv|]. split; [exact Hc|].
  simpl in Hf, Hk. rewrite Hf in Hvf. rewrite Hk in Hvk.
  repeat split; assumption.
Defined.

(** ** Accounting over a whole run *)

Lemma add_camp_totals (f : CampForm) (db : DB) :
  food_in_stock (after (add_camp f) db) + food_handed_out (after (add_camp f) db)
  = food_in_stock db + food_handed_out db + food_brought (ReqAddCamp f)
  /\ kits_in_stock (after (add_camp f) db) + kits_handed_out (after (add_camp f) db)
     = kits_in_stock db + kits_handed_out db + kits_brought (ReqAddCamp f).
Proof.
  destruct f as [loc [cap|] [food|] [kits|] [vols|]];
    unfold after, add_camp; simpl; try (split; lia).
  destruct (String.eqb loc ""); simpl; [split; lia|].
  destruct (cap <=? 0); simpl; [split; lia|].
  unfold food_in_stock, kits_in_stock, food_handed_out, kits_handed_out.
  simpl. rewrite !map_app. cbn [map]. rewrite !sumZ_snoc. simpl. split; lia.
Qed.

Lemma handle_totals (r : Request) (db : DB) :
  wf_db db ->
  food_in_stock (handle r db) + food_handed_out (handle r db)
  = food_in_stock db + food_handed_out db + food_brought r
  /\ kits_in_stock (handle r db) + kits_handed_out (handle r db)
     = kits_in_stock db + kits_handed_out db + kits_brought r.
Proof.
  intros Hwf. destruct r as [f|f|vid|].
  - apply add_camp_totals.
  - destruct (register_victim_conserves_stock f db Hwf) as [Hf Hk].
    cbn [handle food_brought kits_brought]. lia.
  - destruct (do_distribute_conserves_stock vid db Hwf) as [Hf Hk].
    cbn [handle food_brought kits_brought]. lia.
  - cbn [handle food_brought kits_brought].
    change (after report db) with db. lia.
Qed.

Lemma serve_totals (rs : list Request) (db : DB) :
  wf_db db ->
  food_in_stock (serve rs db) + food_handed_out (serve rs db)
  = food_in_stock db + food_handed_out db + sumZ (map food_brought rs)
  /\ kits_in_stock (serve rs db) + kits_handed_out (serve rs db)
     = kits_in_stock db + kits_handed_out db + sumZ (map kits_brought rs).
Proof.
  unfold serve. revert db. induction rs as [|r rs IH]; intros db Hwf.
  - simpl. lia.
  - cbn [fold_left map sumZ fold_right].
    destruct (IH (handle r db) (wf_handle r db Hwf)) as [Hf Hk].
    destruct (handle_totals r db Hwf) as [Hf' Hk'].
    unfold sumZ in *. lia.
Qed.

(** X17. Stock is accounted for over any run of the application whose camp
    forms carry numbers that fit in 64 bits: in the database reached from the
    empty one by such a sequence of requests, the food still in the camps plus
    the food handed out to victims equals the food brought in by the accepted
    camp forms, and likewise for medical kits.  Nothing but a camp
    registration adds stock and nothing removes it. *)
Theorem stock_accounted (rs : list Request) :
  Forall request_bindable rs ->
  food_in_stock (serve rs init_db) + food_handed_out (serve rs init_db)
  = sumZ (map food_brought rs)
  /\ kits_in_stock (serve rs init_db) + kits_handed_out (serve rs init_db)
     = sumZ (map kits_brought rs).
Proof.
  intros _.
  destruct (serve_totals rs init_db wf_init_db) as [Hf Hk].
  change (food_in_stock init_db) with 0 in Hf.
  change (food_handed_out init_db) with 0 in Hf.
  change (kits_in_stock init_db) with 0 in Hk.
  change (kits_handed_out init_db) with 0 in Hk.
  lia.
Qed.

(** ** The busiest camp *)

Section FirstMaximum.
Variable A : Type.
Variable key : A -> Z.


End FirstMaximum.


(** ** The manual distribution on any database *)

Lemma assigned_camp_run (v : Victim) (db : DB) :
  assigned_camp v db
  = (match assigned_camp_id v with
     | Some cid => if cid =? 0 then None else camp_row db cid
     | None => None
     end, db).
Proof.
  unfold assigned_camp. destruct (assigned_camp_id v) as [cid|]; [|reflexivity].
  destruct (cid =? 0); reflexivity.
Qed.

Lemma do_distribute_run (vid : Z) (db : DB) :
  do_distribute vid db
  = match victim_row db vid with
    | None => (DistVictimNotFound, db)
    | Some v =>
        match fst (assigned_camp v db) with
        | None => (DistNotAssigned, db)
        | Some c =>
            (Distributed (food_given (result (distribute_resources v c) db))
                         (kits_given (result (distribute_resources v c) db))
                         (warnings (result (distribute_resources v c) db)),
             after (distribute_resources v c) db)
        end
    end.
Proof.
  unfold do_distribute, bind. rewrite get_victim_run.
  destruct (victim_row db vid) as [v|]; [|reflexivity].
  rewrite assigned_camp_run. cbn [fst].
  destruct (match assigned_camp_id v with
            | Some cid => if cid =? 0 then None else camp_row db cid
            | None => None
            end) as [c|]; [|reflexivity].
  unfold result, after, food_given, kits_given, warnings.
  destruct (distribute_resources v c db) as [[[fg kg] ws] db']. reflexivity.
Qed.

(** X19. For every victim id that fits in 64 bits, [do_distribute] reports
    an unknown victim exactly when no row has the id, and reports "not
    assigned" exactly when the victim's assigned_camp_id is null, is 0 (falsy
    in Python, whatever the camps table holds) or names no camp row; in both
    cases, and whenever a distribution grants neither food nor a kit, the
    database is left as it was. *)
Theorem do_distribute_decision (vid : Z) (db : DB) :
  Sqlite.bindable vid = true ->
  (result (do_distribute vid) db = DistVictimNotFound
     <-> victim_row db vid = None)
  /\ (result (do_distribute vid) db = DistNotAssigned
      <-> exists v, victim_row db vid = Some v
                    /\ (assigned_camp_id v = None
                        \/ assigned_camp_id v = Some 0
                        \/ exists cid, assigned_camp_id v = Some cid
                                       /\ camp_row db cid = None))
  /\ ((forall fg kg ws, result (do_distribute vid) db <> Distributed fg kg ws) ->
      after (do_distribute vid) db = db)
  /\ (forall ws, result (do_distribute vid) db = Distributed 0 0 ws ->
        after (do_distribute vid) db = db).
Proof.
  intros _. unfold result, after. rewrite do_distribute_run.
  destruct (victim_row db vid) as [v|] eqn:Ev.
  2:{ cbn [fst snd]. split; [tauto|]. split; [|auto].
      split; [discriminate|]. intros (v & Hv & _). discriminate. }
  rewrite assigned_camp_run. cbn [fst].
  assert (Hskip : forall P : Prop,
            (assigned_camp_id v = None
             \/ assigned_camp_id v = Some 0
             \/ exists cid, assigned_camp_id v = Some cid
                            /\ camp_row db cid = None) ->
            (fst (DistNotAssigned, db) = DistVictimNotFound <-> Some v = None)
            /\ (fst (DistNotAssigned, db) = DistNotAssigned
                 <-> exists v0, Some v = Some v0
                                /\ (assigned_camp_id v0 = None
                                    \/ assigned_camp_id v0 = Some 0
                                    \/ exists cid, assigned_camp_id v0 = Some cid
                                                   /\ camp_row db cid = None))
            /\ (P -> snd (DistNotAssigned, db) = db)
            /\ (forall ws, fst (DistNotAssigned, db) = Distributed 0 0 ws ->
                           snd (DistNotAssigned, db) = db)).
  { intros P Hwhy. cbn [fst snd].
    split; [split; discriminate|]. split; [|auto].
    split; [intros _; eauto|reflexivity]. }
  destruct (assigned_camp_id v) as [cid|] eqn:Ea; [|apply Hskip; auto].
  destruct (Z.eqb_spec cid 0) as [Hz|Hz]; [subst cid; apply Hskip; auto|].
  destruct (camp_row db cid) as [c|] eqn:Ec; [|apply Hskip; eauto].
  clear Hskip. cbn [fst snd].
  split; [split; discriminate|]. split; [|split].
  - split; [discriminate|].
    intros (v' & Hv & [Hn | [Hz' | (cid' & Hcid & Hrow)]]);
      injection Hv as <-; congruence.
  - intros Hno. exfalso. eapply Hno. reflexivity.
  - intros ws' Heq. injection Heq as Hf Hk _.
    now apply distribute_nothing_neutral.
Qed.

(** ** Listing everything *)

(** X20. [get_all_camps] and [get_all_victims] return every stored row, each
    as often as it is stored, in ascending id order, and change nothing. *)
Theorem list_all_sorted_complete (db : DB) :
  Permutation (result get_all_camps db) (camps db)
  /\ Sorted (fun a b => camp_id a <= camp_id b) (result get_all_camps db)
  /\ after get_all_camps db = db
  /\ Permutation (result get_all_victims db) (victims db)
  /\ Sorted (fun a b => victim_id a <= victim_id b) (result get_all_victims db)
  /\ after get_all_victims db = db.
Proof.
  unfold result, after, get_all_camps, get_all_victims, query. simpl.
  repeat split; try apply order_by_perm; apply order_by_sorted.
Qed.

(** ** Delta-updates compose *)



(** * The repository on 64-bit integers *)

(** ** Cells and rows *)

Lemma bindable_iff (z : Z) :
  Sqlite.bindable z = true <-> Sqlite.INT64_MIN <= z <= Sqlite.INT64_MAX.
Proof.
  unfold Sqlite.bindable. rewrite andb_true_iff, !Z.leb_le. tauto.
Qed.

Lemma add_integer (a d z : Z) :
  Sqlite.add a d = Sqlite.Integer z ->
  z = a + d /\ Sqlite.bindable (a + d) = true.
Proof.
  unfold Sqlite.add. destruct (Sqlite.bindable (a + d)); [|discriminate].
  intros H. injection H as <-. auto.
Qed.

Lemma add_in_range (a d : Z) :
  Sqlite.bindable (a + d) = true -> Sqlite.add a d = Sqlite.Integer (a + d).
Proof. unfold Sqlite.add. now intros ->. Qed.

Lemma as_camp_kept (c : Camp) : Sqlite.as_camp (Sqlite.kept_camp c) = Some c.
Proof. destruct c; reflexivity. Qed.


Section AllSome.
Variables A B C : Type.
Variable f : A -> option B.
Variable g : C -> A.
Variable h : C -> B.

Lemma all_some_map (l : list C) :
  (forall c, In c l -> f (g c) = Some (h c)) ->
  Sqlite.all_some f (map g l) = Some (map h l).
Proof.
  induction l as [|c l IH]; intros Hall; simpl; [reflexivity|].
  rewrite (Hall c (or_introl eq_refl)), IH; [reflexivity|].
  intros c' Hin. apply Hall. now right.
Qed.

Lemma all_some_map_inv (l : list C) (bs : list B) :
  (forall c b, In c l -> f (g c) = Some b -> b = h c) ->
  Sqlite.all_some f (map g l) = Some bs ->
  bs = map h l /\ forall c, In c l -> f (g c) = Some (h c).
Proof.
  revert bs. induction l as [|c l IH]; intros bs Hall; simpl.
  - intros H. injection H as <-. split; [reflexivity | tauto].
  - destruct (f (g c)) as [b|] eqn:Eb; [|discriminate].
    destruct (Sqlite.all_some f (map g l)) as [bs'|] eqn:Ebs; [|discriminate].
    intros H. injection H as <-.
    destruct (IH bs' (fun c' b' Hin => Hall c' b' (or_intror Hin)) eq_refl)
      as [-> Hrest].
    pose proof (Hall c b (or_introl eq_refl) Eb) as ->.
    split; [reflexivity|]. intros c' [<-|Hin]; auto.
Qed.
End AllSome.

(** ** The camp delta-update *)

Lemma update_camp_binds (cid fd kd od : Z) (db : DB) :
  Sqlite.bindable fd && Sqlite.bindable kd && Sqlite.bindable od
  && Sqlite.bindable cid = false ->
  Sqlite.update_camp_resources cid fd kd od db = Sqlite.Raises Sqlite.OverflowError.
Proof. unfold Sqlite.update_camp_resources. now intros ->. Qed.

(** When every cell stays an INTEGER the UPDATE is the one on [Z]. *)
Lemma commit_camps_inv (cid fd kd od : Z) (db db' : DB) :
  Sqlite.commit_camps db (Sqlite.update_camp_resources cid fd kd od db) = Some db' ->
  Sqlite.bindable fd && Sqlite.bindable kd && Sqlite.bindable od
  && Sqlite.bindable cid = true
  /\ db' = after (update_camp_resources cid fd kd od) db
  /\ forall c, In c (camps db) -> camp_id c = cid ->
       Sqlite.bindable (available_food c + fd) = true
       /\ Sqlite.bindable (available_medical_kits c + kd) = true
       /\ Sqlite.bindable (current_occupancy c + od) = true.
Proof.
  unfold Sqlite.commit_camps, Sqlite.update_camp_resources.
  destruct (_ && Sqlite.bindable cid); [|discriminate].
  destruct (Sqlite.all_some _ _) as [l|] eqn:El; [|discriminate].
  intros H. injection H as <-. split; [reflexivity|].
  apply (all_some_map_inv _ _ _ _ _
           (fun c => if camp_id c =? cid then bump_camp fd kd od c else c))
    in El.
  - destruct El as [-> Hrows]. split; [reflexivity|].
    intros c Hin Hid. specialize (Hrows c Hin).
    apply Z.eqb_eq in Hid. rewrite Hid in Hrows.
    unfold Sqlite.as_camp in Hrows. simpl in Hrows.
    destruct (Sqlite.add (available_food c) fd) as [f|] eqn:Ef; [|discriminate].
    destruct (Sqlite.add (available_medical_kits c) kd) as [k|] eqn:Ek;
      [|discriminate].
    destruct (Sqlite.add (current_occupancy c) od) as [o|] eqn:Eo; [|discriminate].
    apply add_integer in Ef, Ek, Eo. tauto.
  - intros c b _. destruct (camp_id c =? cid).
    + unfold Sqlite.as_camp. simpl.
      destruct (Sqlite.add (available_food c) fd) as [f|] eqn:Ef; [|discriminate].
      destruct (Sqlite.add (available_medical_kits c) kd) as [k|] eqn:Ek;
        [|discriminate].
      destruct (Sqlite.add (current_occupancy c) od) as [o|] eqn:Eo;
        [|discriminate].
      apply add_integer in Ef, Ek, Eo.
      destruct Ef as [-> _], Ek as [-> _], Eo as [-> _].
      intros H. now injection H as <-.
    + rewrite as_camp_kept. intros H. now injection H as <-.
Qed.

Lemma commit_camps_in_range (cid fd kd od : Z) (db : DB) :
  Sqlite.bindable fd && Sqlite.bindable kd && Sqlite.bindable od
  && Sqlite.bindable cid = true ->
  (forall c, In c (camps db) -> camp_id c = cid ->
     Sqlite.bindable (available_food c + fd) = true
     /\ Sqlite.bindable (available_medical_kits c + kd) = true
     /\ Sqlite.bindable (current_occupancy c + od) = true) ->
  Sqlite.commit_camps db (Sqlite.update_camp_resources cid fd kd od db)
  = Some (after (update_camp_resources cid fd kd od) db).
Proof.
  intros Hb Hrange.
  unfold Sqlite.commit_camps, Sqlite.update_camp_resources. rewrite Hb.
  rewrite (all_some_map _ _ _ _ _
             (fun c => if camp_id c =? cid then bump_camp fd kd od c else c)).
  - reflexivity.
  - intros c Hin. destruct (Z.eqb_spec (camp_id c) cid) as [Hid|_].
    + destruct (Hrange c Hin Hid) as (Hf & Hk & Ho).
      unfold Sqlite.as_camp. simpl.
      rewrite (add_in_range _ _ Hf), (add_in_range _ _ Hk), (add_in_range _ _ Ho).
      reflexivity.
    + apply as_camp_kept.
Qed.





(** C10, as stated, fails for an id outside 64 bits: no camp has the id
    2^63, and the update for it raises [OverflowError] instead of doing
    nothing quietly. *)
Lemma update_camp_resources_absent_id_raises :
  camp_row riverside_db (2 ^ 63) = None
  /\ Sqlite.update_camp_resources (2 ^ 63) 0 0 0 riverside_db
     = Sqlite.Raises Sqlite.OverflowError.
Proof. split; reflexivity. Qed.

(** C10, amended.  The camp delta-update modifies only the available_food,
    available_medical_kits and current_occupancy cells of the rows whose
    camp_id is the given one: camp_id, location, max_capacity and volunteers
    of every row are kept, every row with another camp_id is kept whole, and
    the victims table and both id counters are kept.  When the id and the
    deltas fit in 64 bits and no camp has the id, the operation is a no-op
    that raises no error; when one of them does not fit, it raises
    [OverflowError] and nothing is written. *)
Theorem update_camp_resources_frame_in_range
    (db : DB) (cid food_delta kits_delta occupancy_delta : Z) :
  (Sqlite.bindable food_delta && Sqlite.bindable kits_delta
   && Sqlite.bindable occupancy_delta && Sqlite.bindable cid = false ->
   Sqlite.update_camp_resources cid food_delta kits_delta occupancy_delta db
   = Sqlite.Raises Sqlite.OverflowError)
  /\ (Sqlite.bindable food_delta && Sqlite.bindable kits_delta
      && Sqlite.bindable occupancy_delta && Sqlite.bindable cid = true ->
      exists rows,
        Sqlite.update_camp_resources cid food_delta kits_delta
          occupancy_delta db = Sqlite.Returns rows
        /\ Forall2 (fun c s =>
                      Sqlite.sc_camp_id s = camp_id c
                      /\ Sqlite.sc_location s = location c
                      /\ Sqlite.sc_max_capacity s = max_capacity c
                      /\ Sqlite.sc_volunteers s = volunteers c
                      /\ (camp_id c <> cid -> s = Sqlite.kept_camp c))
                   (camps db) rows
        /\ (camp_row db cid = None ->
            Sqlite.commit_camps db
              (Sqlite.update_camp_resources cid food_delta kits_delta
                 occupancy_delta db) = Some db))
  /\ (forall db',
        Sqlite.commit_camps db
          (Sqlite.update_camp_resources cid food_delta kits_delta
             occupancy_delta db) = Some db' ->
        victims db' = victims db
        /\ camps_seq db' = camps_seq db
        /\ victims_seq db' = victims_seq db
        /\ Forall2 (fun c c' =>
                      camp_id c' = camp_id c
                      /\ location c' = location c
                      /\ max_capacity c' = max_capacity c
                      /\ volunteers c' = volunteers c
                      /\ (camp_id c <> cid -> c' = c))
                   (camps db) (camps db')
        /\ (forall k, k <> cid -> camp_row db' k = camp_row db k)).
Proof.
  split; [apply update_camp_binds|]. split.
  - intros Hb. eexists. split; [|split].
    + unfold Sqlite.update_camp_resources. rewrite Hb. reflexivity.
    + induction (camps db) as [|c l IH]; simpl; constructor; [|exact IH].
      destruct (Z.eqb_spec (camp_id c) cid) as [He|Hne]; simpl;
        intuition (auto; try contradiction).
    + intros Habs.
      rewrite (commit_camps_in_range _ _ _ _ _ Hb).
      * f_equal. unfold after, update_camp_resources, execute. simpl.
        unfold camp_row, result, get_camp, query in Habs. simpl in Habs.
        rewrite (update_absent _ camp_id _ cid _ Habs).
        destruct db; reflexivity.
      * intros c Hin Hid. exfalso.
        unfold camp_row, result, get_camp, query in Habs. simpl in Habs.
        apply (find_none _ _ Habs) in Hin. simpl in Hin.
        apply Z.eqb_neq in Hin. contradiction.
  - intros db' Hcommit.
    destruct (commit_camps_inv _ _ _ _ _ _ Hcommit) as (_ & -> & _).
    split; [reflexivity|]. split; [reflexivity|]. split; [reflexivity|].
    split.
    + unfold after, update_camp_resources, execute. simpl.
      induction (camps db) as [|c l IH]; simpl; constructor; [|exact IH].
      destruct (Z.eqb_spec (camp_id c) cid) as [He|Hne]; simpl;
        intuition (auto; try contradiction).
    + intros k Hk. now apply camp_row_update_other.
Qed.

(** ** The victim delta-update *)





(** ** Inserts *)

(** X2. [create_camp] raises [OverflowError] when max_capacity, a stock
    number or the volunteer count is outside 64 bits, and [OperationalError]
    when the table has used the largest rowid; in both cases nothing is
    written.  Otherwise it returns a positive 64-bit id greater than every
    camp id in the table, [get_camp] on that id reads back the row just written
    with the given values and current_occupancy 0, every camp readable before
    reads the same afterwards, and the victims table is untouched. *)
Theorem create_camp_round_trip
    (db : DB) (loc : string) (cap food kits vols : Z) :
  (Sqlite.bindable cap && Sqlite.bindable food && Sqlite.bindable kits
   && Sqlite.bindable vols = false ->
   Sqlite.create_camp loc cap food kits vols db
   = Sqlite.Raises Sqlite.OverflowError)
  /\ (Sqlite.bindable cap && Sqlite.bindable food && Sqlite.bindable kits
      && Sqlite.bindable vols = true ->
      ~ camps_have_room db ->
      Sqlite.create_camp loc cap food kits vols db
      = Sqlite.Raises Sqlite.OperationalError)
  /\ (Sqlite.bindable cap && Sqlite.bindable food && Sqlite.bindable kits
      && Sqlite.bindable vols = true ->
      camps_have_room db ->
      exists cid db',
        Sqlite.create_camp loc cap food kits vols db = Sqlite.Returns (cid, db')
        /\ 0 < cid <= Sqlite.INT64_MAX
        /\ Forall (fun c => camp_id c < cid) (camps db)
        /\ camp_row db' cid = Some (mkCamp cid loc cap food kits vols 0)
        /\ (forall k c, camp_row db k = Some c -> camp_row db' k = Some c)
        /\ victims db' = victims db).
Proof.
  unfold Sqlite.create_camp, camps_have_room.
  split; [now intros ->|]. split.
  - intros -> Hfull.
    destruct (Z.leb_spec (next_rowid (camps_seq db) (map camp_id (camps db)))
                Sqlite.INT64_MAX); [contradiction | reflexivity].
  - intros -> Hroom.
    assert (Hr : (next_rowid (camps_seq db) (map camp_id (camps db))
                  <=? Sqlite.INT64_MAX) = true) by now apply Z.leb_le.
    rewrite Hr.
    destruct (create_camp_reads_back db loc cap food kits vols)
      as (Hpos & Hfresh & Hrow & Hold & Hv).
    unfold result, after in *.
    destruct (create_camp loc cap food kits vols db) as [cid db'] eqn:E.
    simpl in *. exists cid, db'.
    assert (cid = next_rowid (camps_seq db) (map camp_id (camps db)))
      by (unfold create_camp in E; now injection E as <- _).
    repeat split; try assumption; subst cid; assumption.
Qed.

(** X3. [create_victim] raises [OverflowError] when the age or the camp id
    is outside 64 bits, [OperationalError] when the table has used the largest
    rowid, and [IntegrityError] when the camp id names no camp row (foreign
    key); in all three cases nothing is written.  Otherwise it returns a
    positive 64-bit id above every victim id, [get_victim] on that id reads
    back the row with the given values, assigned to the camp, with both
    distribution counters at 0, every victim readable before reads the same,
    and the camps table is untouched. *)
Theorem create_victim_round_trip
    (db : DB) (nm : string) (ag : Z) (hc : string) (cid : Z) :
  (Sqlite.bindable ag && Sqlite.bindable cid = false ->
   Sqlite.create_victim nm ag hc cid db = Sqlite.Raises Sqlite.OverflowError)
  /\ (Sqlite.bindable ag && Sqlite.bindable cid = true ->
      ~ victims_have_room db ->
      Sqlite.create_victim nm ag hc cid db
      = Sqlite.Raises Sqlite.OperationalError)
  /\ (Sqlite.bindable ag && Sqlite.bindable cid = true ->
      victims_have_room db ->
      camp_row db cid = None ->
      Sqlite.create_victim nm ag hc cid db
      = Sqlite.Raises Sqlite.IntegrityError)
  /\ (Sqlite.bindable ag && Sqlite.bindable cid = true ->
      victims_have_room db ->
      forall c, camp_row db cid = Some c ->
        exists vid db',
          Sqlite.create_victim nm ag hc cid db = Sqlite.Returns (vid, db')
          /\ 0 < vid <= Sqlite.INT64_MAX
          /\ Forall (fun v => victim_id v < vid) (victims db)
          /\ victim_row db' vid = Some (mkVictim vid nm ag hc (Some cid) 0 0)
          /\ (forall k v, victim_row db k = Some v -> victim_row db' k = Some v)
          /\ camps db' = camps db).
Proof.
  unfold Sqlite.create_victim, victims_have_room.
  destruct (create_victim_reads_back db nm ag hc cid) as [Hnone Hsome].
  split; [now intros ->|]. split; [|split].
  - intros -> Hfull.
    destruct (Z.leb_spec (next_rowid (victims_seq db) (map victim_id (victims db)))
                Sqlite.INT64_MAX); [contradiction | reflexivity].
  - intros -> Hroom Habs. apply Z.leb_le in Hroom. rewrite Hroom.
    now rewrite (Hnone Habs).
  - intros -> Hroom c Hc.
    assert (Hr : (next_rowid (victims_seq db) (map victim_id (victims db))
                  <=? Sqlite.INT64_MAX) = true) by now apply Z.leb_le.
    rewrite Hr.
    destruct (Hsome c Hc) as (vid & Hres & Hpos & Hfresh & Hrow & Hold & Hcamps).
    unfold result, after in *.
    assert (E : existsb (fun c0 => camp_id c0 =? cid) (camps db) = true)
      by (apply camp_row_exists; eauto).
    assert (Hvid : vid = next_rowid (victims_seq db) (map victim_id (victims db))).
    { unfold create_victim in Hres. rewrite E in Hres. simpl in Hres.
      now injection Hres as <-. }
    destruct (create_victim nm ag hc cid db) as [[v|] db'] eqn:Ecv;
      simpl in Hres; [|discriminate].
    injection Hres as ->. simpl in *.
    exists vid, db'. repeat split; try assumption; subst vid; assumption.
Qed.

(** ** The listing of a camp's victims *)

(** X5. [get_victims_for_camp] raises [OverflowError] for a camp id outside
    64 bits; for every other id it returns exactly the victim rows whose
    assigned_camp_id is that id, in ascending victim_id order. *)
Theorem get_victims_for_camp_lists_assigned (db : DB) (cid : Z) :
  (Sqlite.bindable cid = false ->
   Sqlite.get_victims_for_camp cid db = Sqlite.Raises Sqlite.OverflowError)
  /\ (Sqlite.bindable cid = true ->
      exists vs,
        Sqlite.get_victims_for_camp cid db = Sqlite.Returns vs
        /\ (forall v, In v vs
                      <-> In v (victims db) /\ assigned_camp_id v = Some cid)
        /\ Sorted (fun a b => victim_id a <= victim_id b) vs).
Proof.
  unfold Sqlite.get_victims_for_camp. split; [now intros ->|].
  intros ->. exists (occupants db cid). split; [reflexivity|].
  destruct (occupants_assigned_sorted db cid) as (Hmem & Hsort & _).
  split; assumption.
Qed.

(** ** Delta-updates compose *)






(** ** The statements on requests within 64 bits, run on the scenario *)

Lemma scenario_camp_form_bindable : camp_form_bindable scenario_camp_form.
Proof.
  intros n [H|[H|[H|[H|[]]]]]; injection H as <-; reflexivity.
Qed.

Lemma view_camp_occupancy_witness :
  Sqlite.bindable 1 = true
  /\ exists c vs,
       result (view_camp 1) (serve scenario_requests init_db) = Some (c, vs)
       /\ camp_row (serve scenario_requests init_db) 1 = Some c
       /\ current_occupancy c = Z.of_nat (List.length vs).
Proof.
  split; [reflexivity|].
  destruct (view_camp_occupancy scenario_requests 1 eq_refl) as [_ H].
  destruct (result (view_camp 1) (serve scenario_requests init_db))
    as [[c vs]|].
  - exists c, vs. destruct H as (Hrow & Hocc & _). auto.
  - vm_compute in H. discriminate H.
Defined.

Lemma reachable_victim_has_camp_witness :
  Sqlite.bindable 1 = true
  /\ exists v c,
       result (search_victim (Some 1)) (serve scenario_requests init_db)
       = SearchFound v (Some c)
       /\ victim_row (serve scenario_requests init_db) 1 = Some v
       /\ assigned_camp_id v = Some (camp_id c).
Proof.
  split; [reflexivity|].
  destruct (reachable_victim_has_camp scenario_requests 1 eq_refl) as (_ & H & _).
  destruct (result (search_victim (Some 1)) (serve scenario_requests init_db))
    as [| |v camp].
  - contradiction.
  - vm_compute in H. discriminate H.
  - destruct H as (Hv & c & -> & Hc). exists v, c. auto.
Defined.

Lemma do_distribute_decision_witness :
  Sqlite.bindable 7 = true
  /\ victim_row hillside_db 7 = None
  /\ result (do_distribute 7) hillside_db = DistVictimNotFound.
Proof.
  split; [reflexivity|]. split; [reflexivity|].
  destruct (do_distribute_decision 7 hillside_db eq_refl) as (H & _).
  apply H. reflexivity.
Defined.

Lemma add_camp_validation_witness :
  camp_form_bindable scenario_camp_form
  /\ camps_have_room init_db
  /\ result (add_camp scenario_camp_form) init_db = CampCreated 1
  /\ exists cap food kits vols,
       camp_row (after (add_camp scenario_camp_form) init_db) 1
       = Some (mkCamp 1 "Riverside" cap food kits vols 0).
Proof.
  assert (Hroom : camps_have_room init_db) by (vm_compute; discriminate).
  split; [exact scenario_camp_form_bindable|]. split; [exact Hroom|].
  split; [reflexivity|].
  destruct (add_camp_validation scenario_camp_form init_db
              scenario_camp_form_bindable Hroom) as (_ & _ & H & _).
  destruct (H 1 eq_refl) as (cap & food & kits & vols & Hrow & _).
  exists cap, food, kits, vols. exact Hrow.
Defined.

Lemma register_victim_decision_witness :
  (forall cid, vf_camp_id scenario_victim_form = Some cid ->
     Sqlite.bindable cid = true)
  /\ victims_have_room scenario_db
  /\ result (register_victim scenario_victim_form) scenario_db <> RegUncaught
  /\ exists vid fg kg ws,
       result (register_victim scenario_victim_form) scenario_db
       = Registered vid fg kg ws.
Proof.
  assert (Hcid : forall cid, vf_camp_id scenario_victim_form = Some cid ->
                   Sqlite.bindable cid = true)
    by (intros cid H; injection H as <-; reflexivity).
  assert (Hroom : victims_have_room scenario_db) by (vm_compute; discriminate).
  split; [exact Hcid|]. split; [exact Hroom|].
  destruct (register_victim_decision scenario_victim_form scenario_db Hcid Hroom)
    as (Hiff & _ & Hun).
  split; [exact Hun|]. apply Hiff.
  exists 41, 1, (mkCamp 1 "Riverside" 10 1 1 2 0).
  split; [|split; reflexivity].
  unfold valid_form. simpl. repeat split; try lia; try discriminate. now right.
Defined.

Lemma stock_accounted_witness :
  Forall request_bindable scenario_requests
  /\ food_in_stock (serve scenario_requests init_db)
     + food_handed_out (serve scenario_requests init_db) = 1
  /\ kits_in_stock (serve scenario_requests init_db)
     + kits_handed_out (serve scenario_requests init_db) = 1.
Proof.
  assert (H : Forall request_bindable scenario_requests).
  { constructor; [exact scenario_camp_form_bindable|].
    constructor; [exact I | constructor]. }
  split; [exact H|]. exact (stock_accounted scenario_requests H).
Defined.
